(** * Obsidian MCP server plugin: settings tab, fragment synthesis and
      merge into the Claude Desktop configuration file

    A shallow embedding of [src/main.ts].  The development follows the
    source: JavaScript strings are sequences of UTF-16 code units, JSON
    documents are the values [JSON.parse] builds (objects keep their
    property order), the settings tab is a record of the fields the
    handlers read and assign, and the handlers run in a small state
    monad with exceptions and early return over the tab, the file
    system and the trace of what the user and the disk observe. *)

From Stdlib Require Import String Ascii ZArith NArith List Bool.
From stdpp Require Import base option list gmap.

Local Open Scope N_scope.
Local Open Scope list_scope.

Set Warnings "-register-all".

(** ** JavaScript strings *)

Module JsString.

(** A string value is a finite sequence of 16-bit code units. *)
Definition t := list N.

(** An ASCII literal as a string value. *)
Fixpoint of_ascii (s : string) : t :=
  match s with
  | EmptyString => []
  | String c r => N_of_ascii c :: of_ascii r
  end.

Definition eqb (a b : t) : bool := bool_decide (a = b).

(** WhiteSpace and LineTerminator code points of ECMAScript, the set
    [String.prototype.trim] strips and [parseInt] skips.  All of them
    are in the basic plane, hence one code unit each. *)
Definition is_white (c : N) : bool :=
  (c =? 9) || (c =? 10) || (c =? 11) || (c =? 12) || (c =? 13) ||
  (c =? 32) || (c =? 160) || (c =? 5760) ||
  ((8192 <=? c) && (c <=? 8202)) ||
  (c =? 8232) || (c =? 8233) || (c =? 8239) || (c =? 8287) ||
  (c =? 12288) || (c =? 65279).

Fixpoint trimStart (s : t) : t :=
  match s with
  | c :: r => if is_white c then trimStart r else s
  | [] => []
  end.

Definition trimEnd (s : t) : t := rev (trimStart (rev s)).

(** [s.trim()] *)
Definition trim (s : t) : t := trimEnd (trimStart s).

(** [s.startsWith(p)] *)
Fixpoint startsWith (p s : t) : bool :=
  match p, s with
  | [], _ => true
  | a :: p', b :: s' => (a =? b) && startsWith p' s'
  | _ :: _, [] => false
  end.

(** [s.substring(n)] for a natural [n] *)
Definition substring (n : nat) (s : t) : t := drop n s.

(** truthiness of a string: the empty string is the only falsy one *)
Definition truthy (s : t) : bool :=
  match s with [] => false | _ :: _ => true end.

End JsString.

Abbreviation jsstring := JsString.t.
Abbreviation js := JsString.of_ascii.

(** ** The file system *)

Inductive node := File (text : jsstring) | Dir.

(** Paths are the keys: the model does not identify two spellings of one
    location. *)
Abbreviation filesystem := (gmap jsstring node).

(** ** JavaScript values and JSON text *)

Section Model.

(** The Number type of the platform.  The plugin never computes with
    numbers: it obtains one from [parseInt], tests it, prints it and
    copies the numbers of a parsed document. *)
Context {number : Type}.

(** The values the plugin handles: what [JSON.parse] returns, the object
    literals of the source, and [undefined].  An object is the list of
    its own properties in enumeration order.  An array has its elements
    and, besides them, the properties set on it under names that are
    not indices ([named]). *)
Inductive value : Type :=
| VUndefined
| VNull
| VBool (b : bool)
| VNum (n : number)
| VStr (s : jsstring)
| VArr (elems : list value) (named : list (jsstring * value))
| VObj (props : list (jsstring * value)).

Inductive jstype := TUndefined | TObject | TBoolean | TNumber | TString.

(** [typeof v] *)
Definition typeof (v : value) : jstype :=
  match v with
  | VUndefined => TUndefined
  | VNull => TObject
  | VBool _ => TBoolean
  | VNum _ => TNumber
  | VStr _ => TString
  | VArr _ _ => TObject
  | VObj _ => TObject
  end.

Definition jstype_eqb (a b : jstype) : bool :=
  match a, b with
  | TUndefined, TUndefined | TObject, TObject | TBoolean, TBoolean
  | TNumber, TNumber | TString, TString => true
  | _, _ => false
  end.

Definition is_null (v : value) : bool :=
  match v with VNull => true | _ => false end.

(** [typeof v !== 'object' || v === null], the test the handler applies
    to the parsed file and to its [mcpServers] member. *)
Definition not_an_object (v : value) : bool :=
  negb (jstype_eqb (typeof v) TObject) || is_null v.

(** Own properties by name. *)
Fixpoint assoc_get (k : jsstring) (props : list (jsstring * value)) : value :=
  match props with
  | [] => VUndefined
  | (k', v) :: r => if JsString.eqb k' k then v else assoc_get k r
  end.

(** Assignment to a property: an existing property keeps its place, a
    new one is added after the others. *)
Fixpoint assoc_set (k : jsstring) (v : value) (props : list (jsstring * value))
  : list (jsstring * value) :=
  match props with
  | [] => [(k, v)]
  | (k', v') :: r =>
      if JsString.eqb k' k then (k', v) :: r else (k', v') :: assoc_set k v r
  end.

(** [o[k]] for a name [k] that is neither an array index nor [length]
    (the handler uses two fixed names).  [None]: the read throws a
    TypeError, as on [null] and [undefined]. *)
Definition get_prop (o : value) (k : jsstring) : option value :=
  match o with
  | VObj props => Some (assoc_get k props)
  | VArr _ named => Some (assoc_get k named)
  | VUndefined | VNull => None
  | VBool _ | VNum _ | VStr _ => Some VUndefined
  end.

(** [o[k] = v] in strict mode, for such a name [k].  [None]: the
    assignment throws a TypeError, as on every primitive. *)
Definition set_prop (o : value) (k : jsstring) (v : value) : option value :=
  match o with
  | VObj props => Some (VObj (assoc_set k v props))
  | VArr elems named => Some (VArr elems (assoc_set k v named))
  | _ => None
  end.

(** The platform: the built-ins of the language and of Node the plugin
    calls, none of them code of this repository. *)
Record platform := {
  (** [parseInt(s, 10)] *)
  parseInt10 : jsstring -> number;
  (** [isNaN(n)] *)
  Number_isNaN : number -> bool;
  (** [n >= 0] *)
  Number_ge0 : number -> bool;
  (** [isFinite(n)] *)
  Number_isFinite : number -> bool;
  (** [String(n)], also [n.toString()] and [`${n}`] *)
  Number_toString : number -> jsstring;
  (** [JSON.parse(text)]; [None] when it throws a SyntaxError *)
  JSON_parse : jsstring -> option value;
  (** [path.join(...parts)] *)
  path_join : list jsstring -> jsstring;
  (** [path.dirname(p)] *)
  path_dirname : jsstring -> jsstring
}.

Variable pf : platform.

(** *** [JSON.stringify(v, null, 2)] *)

Definition hex_digit (d : N) : N :=
  if d <? 10 then 48 + d else 87 + d.

(** [\uXXXX], four lower-case hexadecimal digits *)
Definition unicode_escape (c : N) : jsstring :=
  [92; 117; hex_digit (c / 4096 mod 16); hex_digit (c / 256 mod 16);
   hex_digit (c / 16 mod 16); hex_digit (c mod 16)].

Definition is_high_surrogate (c : N) : bool := (55296 <=? c) && (c <=? 56319).
Definition is_low_surrogate (c : N) : bool := (56320 <=? c) && (c <=? 57343).

Definition quote_unit (c : N) : jsstring :=
  if c =? 8 then js "\b"
  else if c =? 9 then js "\t"
  else if c =? 10 then js "\n"
  else if c =? 12 then js "\f"
  else if c =? 13 then js "\r"
  else if c =? 34 then [92; 34]
  else if c =? 92 then [92; 92]
  else if (c <? 32) || is_high_surrogate c || is_low_surrogate c
       then unicode_escape c
  else [c].

(** The body of QuoteJSONString: a surrogate pair is copied, a lone
    surrogate is escaped. *)
Fixpoint quote_units (s : jsstring) : jsstring :=
  match s with
  | [] => []
  | c :: r =>
      if is_high_surrogate c then
        match r with
        | d :: r' =>
            if is_low_surrogate d then c :: d :: quote_units r'
            else quote_unit c ++ quote_units r
        | [] => quote_unit c
        end
      else quote_unit c ++ quote_units r
  end.

Definition quote (s : jsstring) : jsstring := [34] ++ quote_units s ++ [34].

Fixpoint join (sep : jsstring) (parts : list jsstring) : jsstring :=
  match parts with
  | [] => []
  | [p] => p
  | p :: r => p ++ sep ++ join sep r
  end.

Definition gap : jsstring := js "  ".
Definition newline : jsstring := [10].

Definition is_undefined (v : value) : bool :=
  match v with VUndefined => true | _ => false end.

(** SerializeJSONProperty for a value that is not [undefined], at the
    indentation [indent].  Properties whose value is [undefined] are
    left out of an object, an [undefined] element of an array is printed
    as [null], and the named properties of an array are not printed. *)
Fixpoint serialize (indent : jsstring) (v : value) : jsstring :=
  match v with
  | VUndefined => js "null"
  | VNull => js "null"
  | VBool true => js "true"
  | VBool false => js "false"
  | VNum n => if Number_isFinite pf n then Number_toString pf n else js "null"
  | VStr s => quote s
  | VArr elems _ =>
      match elems with
      | [] => js "[]"
      | _ =>
          let inner := indent ++ gap in
          js "[" ++ newline ++ inner ++
          join (js "," ++ newline ++ inner) (map (serialize inner) elems) ++
          newline ++ indent ++ js "]"
      end
  | VObj props =>
      let inner := indent ++ gap in
      let members :=
        omap (fun kv : jsstring * value =>
                let (k, x) := kv in
                if is_undefined x then None
                else Some (quote k ++ js ": " ++ serialize inner x)) props in
      match members with
      | [] => js "{}"
      | _ =>
          js "{" ++ newline ++ inner ++
          join (js "," ++ newline ++ inner) members ++
          newline ++ indent ++ js "}"
      end
  end.

(** [JSON.stringify(v, null, 2)]; [None] when the result is [undefined]. *)
Definition JSON_stringify (v : value) : option jsstring :=
  if is_undefined v then None else Some (serialize [] v).


(** ** Settings, the settings tab and the host *)

(** [MyPluginSettings] *)
Record MyPluginSettings := {
  claudeConfigPath : jsstring;
  uvPath : option jsstring;
  historyFolder : option jsstring;
  maxHistoryFiles : number
}.

(** [LocalRestApiPlugin.settings] *)
Record LocalRestApiPlugin_settings := {
  port : number;
  settings_apiKey : jsstring
}.

(** What the handlers read from the application and the operating
    system. *)
Record host := {
  (** [this.app.plugins.getPlugin('obsidian-local-rest-api')]: [None]
      for [null], [Some None] for a plugin without [settings] *)
  local_rest_api : option (option LocalRestApiPlugin_settings);
  (** [this.app.vault.adapter.basePath] *)
  basePath : jsstring;
  (** [this.plugin.manifest.dir] *)
  manifest_dir : jsstring;
  (** [require('os').homedir()]; [None] when the [require] or the call
      throws *)
  os_homedir : option jsstring;
  (** [Platform.isMacOS], [Platform.isWin] *)
  isMacOS : bool;
  isWin : bool
}.

Variable h : host.

(** The fields of [SampleSettingTab] the handlers use, with the settings
    object of the plugin. *)
Record tab := {
  plugin_settings : MyPluginSettings;
  (** [this.McpJsonConfig]: [None] while it is [undefined], else the own
      properties of the object assigned to it *)
  McpJsonConfig : option (list (jsstring * value));
  (** [this.configTextArea]: [None] while it is [undefined], else the
      [value] of the text area *)
  configTextArea : option jsstring;
  (** the text shown in the "Max History Files" field *)
  maxHistoryText : jsstring
}.

(** The messages shown with [new Notice(...)]. *)
Inductive notice :=
(** 'Error: "Claude Desktop Config Path" is not set. Please specify the
    path first.' *)
| NoticePathNotSet
(** 'Error: There is no configuration data.' *)
| NoticeNoConfigData
(** 'Could not expand "~" to home directory automatically.' *)
| NoticeNoHomeDirectory
(** 'Error during tilde expansion. Please use an absolute path.' *)
| NoticeTildeExpansionError
(** `Creating directory: ${dirPath}` *)
| NoticeCreatingDirectory (dirPath : jsstring)
(** `Warning: Existing file at "${filePath}" was not valid JSON. It
    cannnot be updated` *)
| NoticeNotValidJson (filePath : jsstring)
(** `Error reading existing config file. A new file structure will be
    created. Check console for details.` *)
| NoticeReadError
(** `"yor-dev/mcp-obsidian" configuration successfully updated in:
    ${filePath}` *)
| NoticeUpdated (filePath : jsstring)
(** `Failed to save configuration to "${filePath}". Check console for
    details. Ensure the path is valid and writable.` *)
| NoticeSaveFailed (filePath : jsstring)
(** 'Please enter a valid integer greater than or equal to 0.' *)
| NoticeInvalidInteger.

(** What the user, the console, the host and the disk observe, in
    order. *)
Inductive event :=
| ENotice (n : notice)
| EConsoleWarn
| EConsoleError
(** [this.plugin.saveSettings()], that is [saveData(this.settings)] *)
| ESaveData (s : MyPluginSettings)
| EExistsSync (p : jsstring)
| EMkdirSync (p : jsstring)
| EReadFileSync (p : jsstring)
| EWriteFileSync (p : jsstring) (text : jsstring).

Definition is_fs_event (e : event) : bool :=
  match e with
  | EExistsSync _ | EMkdirSync _ | EReadFileSync _ | EWriteFileSync _ _ => true
  | _ => false
  end.

Definition is_write_event (e : event) : bool :=
  match e with EWriteFileSync _ _ => true | _ => false end.

Definition notices_of (evs : list event) : list notice :=
  omap (fun e => match e with ENotice n => Some n | _ => None end) evs.

Record world := {
  ui : tab;
  disk : filesystem;
  (** most recent event last *)
  trace : list event
}.

(** ** The monad of the handlers *)

(** A statement completes with a value, throws, or returns from the
    handler. *)
Inductive outcome (A : Type) :=
| Ok (a : A)
| Throw
| Return.
Arguments Ok {A} a.
Arguments Throw {A}.
Arguments Return {A}.

Definition M (A : Type) : Type := world -> outcome A * world.

Definition ret {A} (a : A) : M A := fun w => (Ok a, w).

Definition bind {A B} (m : M A) (k : A -> M B) : M B :=
  fun w =>
    match m w with
    | (Ok a, w') => k a w'
    | (Throw, w') => (Throw, w')
    | (Return, w') => (Return, w')
    end.

(** [throw] and the [return;] of a handler *)
Definition throw {A} : M A := fun w => (Throw, w).
Definition return_ {A} : M A := fun w => (Return, w).

(** [try { body } catch (e) { handler }]: a [return] inside [body] is
    not caught. *)
Definition try_catch {A} (body handler : M A) : M A :=
  fun w =>
    match body w with
    | (Throw, w') => handler w'
    | r => r
    end.

(** The world after the events [evs]. *)
Definition log (evs : list event) (w : world) : world :=
  {| ui := ui w; disk := disk w; trace := trace w ++ evs |}.

Definition emit (e : event) : M unit := fun w => (Ok tt, log [e] w).

Definition set_disk (d : filesystem) (w : world) : world :=
  {| ui := ui w; disk := d; trace := trace w |}.

Definition get_ui : M tab := fun w => (Ok (ui w), w).
Definition put_ui (t : tab) : M unit :=
  fun w => (Ok tt, {| ui := t; disk := disk w; trace := trace w |}).
Definition get_disk : M filesystem := fun w => (Ok (disk w), w).
Definition put_disk (d : filesystem) : M unit :=
  fun w => (Ok tt, set_disk d w).

(** [None] is a TypeError. *)
Definition lift_option {A} (o : option A) : M A :=
  match o with Some a => ret a | None => throw end.


Local Notation "'let*' x ':=' m 'in' k" := (bind m (fun x => k))
  (at level 10, x name, m at level 100, k at level 200).
Local Notation "m >>> k" := (bind m (fun _ => k))
  (at level 80, right associativity).

(** [new Notice(msg)] *)
Definition new_Notice (n : notice) : M unit := emit (ENotice n).

(** *** Node's [fs], as far as the handler uses it

    The module is taken to be there, as it is in the desktop
    application.  The model has no permissions and no devices: a call
    fails only for the shape of the tree. *)

(** [p], its parent, the parent of that, ... up to the first path that
    is its own parent. *)
Fixpoint ancestors (fuel : nat) (p : jsstring) : list jsstring :=
  p :: match fuel with
       | O => []
       | S f =>
           let d := path_dirname pf p in
           if JsString.eqb d p then [] else ancestors f d
       end.

Definition is_file (d : filesystem) (p : jsstring) : bool :=
  match d !! p with Some (File _) => true | _ => false end.

Definition is_dir (d : filesystem) (p : jsstring) : bool :=
  match d !! p with Some Dir => true | _ => false end.

Definition make_dirs (chain : list jsstring) (d : filesystem) : filesystem :=
  foldr (fun q acc => <[q := Dir]> acc) d chain.

(** [fs.existsSync(p)] *)
Definition existsSync (p : jsstring) : M bool :=
  emit (EExistsSync p) >>>
  let* d := get_disk in
  ret (match d !! p with Some _ => true | None => false end).

(** [fs.mkdirSync(p, { recursive: true })]: creates [p] and every
    missing ancestor; throws when one of them is a regular file. *)
Definition mkdirSync_recursive (p : jsstring) : M unit :=
  emit (EMkdirSync p) >>>
  let* d := get_disk in
  let chain := ancestors (length p) p in
  if existsb (is_file d) chain then throw
  else put_disk (make_dirs chain d).

(** [fs.readFileSync(p, 'utf-8')]: throws unless [p] is a regular
    file. *)
Definition readFileSync (p : jsstring) : M jsstring :=
  emit (EReadFileSync p) >>>
  let* d := get_disk in
  match d !! p with
  | Some (File text) => ret text
  | _ => throw
  end.

(** [fs.writeFileSync(p, text, 'utf-8')]: replaces the whole content;
    throws when [p] is a directory or its parent is not one. *)
Definition writeFileSync (p : jsstring) (text : jsstring) : M unit :=
  emit (EWriteFileSync p text) >>>
  let* d := get_disk in
  if is_dir d p then throw
  else if is_dir d (path_dirname pf p) then put_disk (<[p := File text]> d)
  else throw.

(** ** The settings tab *)

Definition set_plugin_settings (s : MyPluginSettings) (t : tab) : tab :=
  {| plugin_settings := s; McpJsonConfig := McpJsonConfig t;
     configTextArea := configTextArea t; maxHistoryText := maxHistoryText t |}.

Definition set_McpJsonConfig (c : option (list (jsstring * value))) (t : tab) : tab :=
  {| plugin_settings := plugin_settings t; McpJsonConfig := c;
     configTextArea := configTextArea t; maxHistoryText := maxHistoryText t |}.

Definition set_configTextArea (a : option jsstring) (t : tab) : tab :=
  {| plugin_settings := plugin_settings t; McpJsonConfig := McpJsonConfig t;
     configTextArea := a; maxHistoryText := maxHistoryText t |}.

Definition set_maxHistoryText (x : jsstring) (t : tab) : tab :=
  {| plugin_settings := plugin_settings t; McpJsonConfig := McpJsonConfig t;
     configTextArea := configTextArea t; maxHistoryText := x |}.

Definition set_maxHistoryFiles (n : number) (s : MyPluginSettings) : MyPluginSettings :=
  {| claudeConfigPath := claudeConfigPath s; uvPath := uvPath s;
     historyFolder := historyFolder s; maxHistoryFiles := n |}.

Definition set_historyFolder (f : option jsstring) (s : MyPluginSettings) : MyPluginSettings :=
  {| claudeConfigPath := claudeConfigPath s; uvPath := uvPath s;
     historyFolder := f; maxHistoryFiles := maxHistoryFiles s |}.

Definition set_uvPath (p : option jsstring) (s : MyPluginSettings) : MyPluginSettings :=
  {| claudeConfigPath := claudeConfigPath s; uvPath := p;
     historyFolder := historyFolder s; maxHistoryFiles := maxHistoryFiles s |}.

(** [DefaultClaudeConfigPaths] *)
Definition DefaultClaudeConfigPaths_macOS : jsstring :=
  js "~/Library/Application Support/Claude/claude_desktop_config.json".
Definition DefaultClaudeConfigPaths_windows : jsstring :=
  js "%APPDATA%\Claude\claude_desktop_config.json".

Definition getDefaultClaudeConfigPath : jsstring :=
  if isMacOS h then DefaultClaudeConfigPaths_macOS
  else if isWin h then DefaultClaudeConfigPaths_windows
  else [].

(** [saveSettings()] *)
Definition saveSettings : M unit :=
  let* t := get_ui in emit (ESaveData (plugin_settings t)).

Record credentials := {
  url : option jsstring;
  apiKey : option jsstring
}.

Definition getLocalRestApiCredentials : credentials :=
  match local_rest_api h with
  | Some (Some s) =>
      {| url := Some (js "https://127.0.0.1:" ++ Number_toString pf (port s));
         apiKey := Some (settings_apiKey s) |}
  | _ => {| url := None; apiKey := None |}
  end.

(** a [string | null] as a value *)
Definition string_or_null (o : option jsstring) : value :=
  match o with Some s => VStr s | None => VNull end.

(** The key of the plugin's entry. *)
Definition entryKey : jsstring := js "yor-dev/mcp-obsidian".

(** The object under ["yor-dev/mcp-obsidian"] in the literal that
    [_updateMcpJsonConfigDisplay] builds: the configuration fragment. *)
Definition fragment (s : MyPluginSettings) (c : credentials) : value :=
  VObj
    [ (js "command",
       VStr (match uvPath s with
             | Some p => if JsString.truthy p then p else js "uv"
             | None => js "uv"
             end));
      (js "args",
       VArr [ VStr (js "tool"); VStr (js "run");
              VStr (path_join pf [ basePath h; manifest_dir h;
                                   js "/python-packages/obsidian-mcp-server" ]) ]
            []);
      (js "env",
       VObj [ (js "OBSIDIAN_API_KEY", string_or_null (apiKey c));
              (js "OBSIDIAN_HOST", string_or_null (url c));
              (js "OBSIDIAN_HISTORY_FOLDER", string_or_null (historyFolder s));
              (js "OBSIDIAN_MAX_HISTORY_FILES",
               VStr (Number_toString pf (maxHistoryFiles s))) ]) ].

(** The text an assignment to [textArea.value] stores. *)
Definition text_of_stringify (r : option jsstring) : jsstring :=
  match r with Some text => text | None => js "undefined" end.

(** [_updateMcpJsonConfigDisplay(this.configTextArea, credentials)];
    every caller passes [this.configTextArea] for the text area.  The
    assignment to [textArea.value] throws a TypeError while the text
    area is [undefined]. *)
Definition _updateMcpJsonConfigDisplay (c : credentials) : M unit :=
  let* t := get_ui in
  let config := [ (entryKey, fragment (plugin_settings t) c) ] in
  put_ui (set_McpJsonConfig (Some config) t) >>>
  let* t := get_ui in
  match configTextArea t with
  | None => throw
  | Some _ =>
      put_ui (set_configTextArea
                (Some (text_of_stringify (JSON_stringify (VObj config)))) t)
  end.

(** [_buildMcpJsonConfigUI]: the text area is created, empty, and
    filled. *)
Definition _buildMcpJsonConfigUI (c : credentials) : M unit :=
  let* t := get_ui in
  put_ui (set_configTextArea (Some []) t) >>>
  _updateMcpJsonConfigDisplay c.

(** The [onChange] callback of the "History Folder" field. *)
Definition onChange_historyFolder (value : jsstring) : M unit :=
  let trimmedValue := JsString.trim value in
  let valueToSave :=
    if JsString.eqb trimmedValue [] then None else Some trimmedValue in
  let* t := get_ui in
  put_ui (set_plugin_settings (set_historyFolder valueToSave (plugin_settings t)) t) >>>
  saveSettings >>>
  let* t := get_ui in
  match configTextArea t with
  | Some _ => _updateMcpJsonConfigDisplay getLocalRestApiCredentials
  | None => ret tt
  end.

(** The [onChange] callback of the "Max History Files" field. *)
Definition onChange_maxHistoryFiles (value : jsstring) : M unit :=
  let numValue := parseInt10 pf value in
  if negb (Number_isNaN pf numValue) && Number_ge0 pf numValue then
    let* t := get_ui in
    put_ui (set_plugin_settings (set_maxHistoryFiles numValue (plugin_settings t)) t) >>>
    saveSettings >>>
    _updateMcpJsonConfigDisplay getLocalRestApiCredentials
  else
    new_Notice NoticeInvalidInteger >>>
    let* t := get_ui in
    put_ui (set_maxHistoryText
              (Number_toString pf (maxHistoryFiles (plugin_settings t))) t).

(** The user edits the "Max History Files" field to [value]: the field
    shows it and the callback runs. *)
Definition edit_maxHistoryFiles (value : jsstring) : M unit :=
  let* t := get_ui in
  put_ui (set_maxHistoryText value t) >>>
  onChange_maxHistoryFiles value.

(** The [onChange] callback of the "uv Executable Path" field. *)
Definition onChange_uvPath (value : jsstring) : M unit :=
  let newPath := JsString.trim value in
  let* t := get_ui in
  put_ui (set_plugin_settings (set_uvPath (Some newPath) (plugin_settings t)) t) >>>
  saveSettings >>>
  _updateMcpJsonConfigDisplay getLocalRestApiCredentials.


(** ** The "Update JSON" button *)

(** [filePath && (filePath.startsWith('~/') || filePath.startsWith('~\\'))] *)
Definition has_tilde (filePath : jsstring) : bool :=
  JsString.truthy filePath &&
  (JsString.startsWith (js "~/") filePath ||
   JsString.startsWith (js "~\") filePath).

(** The tilde expansion of the handler: the path the rest of the handler
    uses.  When the home directory is not found, or the lookup throws,
    the handler shows a notice and goes on with the path as it is. *)
Definition expand_tilde (filePath : jsstring) : M jsstring :=
  if has_tilde filePath then
    try_catch
      (let* homedir := lift_option (os_homedir h) in
       if JsString.truthy homedir then
         ret (path_join pf
                [ homedir;
                  JsString.substring
                    (if JsString.startsWith (js "~/") filePath then 2 else 1)
                    filePath ])
       else
         emit EConsoleWarn >>>
         new_Notice NoticeNoHomeDirectory >>>
         ret filePath)
      (emit EConsoleError >>>
       new_Notice NoticeTildeExpansionError >>>
       ret filePath)
  else ret filePath.

(** The parent directory is created, with its missing ancestors, when
    it does not exist. *)
Definition ensure_directory (dirPath : jsstring) : M unit :=
  let* found := existsSync dirPath in
  if negb found then
    new_Notice (NoticeCreatingDirectory dirPath) >>>
    mkdirSync_recursive dirPath
  else ret tt.

(** The existing file, if there is one: the document to update.  A file
    whose content parses to something that is not an object, by the test
    of the source, ends the handler; a file that cannot be read or
    parsed is replaced by the empty object. *)
Definition load_fileConfig (filePath : jsstring) : M value :=
  let* found := existsSync filePath in
  if found then
    try_catch
      (let* fileContent := readFileSync filePath in
       let* fileConfig := lift_option (JSON_parse pf fileContent) in
       if not_an_object fileConfig then
         new_Notice (NoticeNotValidJson filePath) >>>
         return_
       else ret fileConfig)
      (new_Notice NoticeReadError >>>
       ret (VObj []))
  else ret (VObj []).

(** The two assignments of the merge, on the document [fileConfig]:
    [fileConfig.mcpServers = {}] unless it is an object already, then
    [fileConfig.mcpServers["yor-dev/mcp-obsidian"] = entry].  The second
    one changes the object that [fileConfig.mcpServers] refers to, in
    place. *)
Definition merge_entry (fileConfig entry : value) : option value :=
  servers ← get_prop fileConfig (js "mcpServers");
  fileConfig ← (if not_an_object servers
                then set_prop fileConfig (js "mcpServers") (VObj [])
                else Some fileConfig);
  servers ← get_prop fileConfig (js "mcpServers");
  servers ← set_prop servers entryKey entry;
  set_prop fileConfig (js "mcpServers") servers.

(** What the merge leaves under [mcpServers], given what was there:
    an object or an array receives the entry, anything else is replaced
    by a new object with the entry. *)
Definition merged_servers (servers entry : value) : value :=
  match servers with
  | VObj props => VObj (assoc_set entryKey entry props)
  | VArr elems named => VArr elems (assoc_set entryKey entry named)
  | _ => VObj [ (entryKey, entry) ]
  end.

(** The body of the [try] block of the handler, up to the document that
    is written. *)
Definition prepare_document (filePath : jsstring)
    (config : list (jsstring * value)) : M value :=
  let dirPath := path_dirname pf filePath in
  ensure_directory dirPath >>>
  let* fileConfig := load_fileConfig filePath in
  lift_option (merge_entry fileConfig (assoc_get entryKey config)).

(** [fs.writeFileSync(filePath, JSON.stringify(fileConfig, null, 2),
    'utf-8')] and the notice that follows. *)
Definition write_document (filePath : jsstring) (fileConfig : value) : M unit :=
  let* text := lift_option (JSON_stringify fileConfig) in
  writeFileSync filePath text >>>
  new_Notice (NoticeUpdated filePath).

(** The second [try] statement of the handler: the update of the file
    at [filePath], the path after the tilde expansion. *)
Definition update_file (filePath : jsstring)
    (config : list (jsstring * value)) : M unit :=
  try_catch
    (let* fileConfig := prepare_document filePath config in
     write_document filePath fileConfig)
    (emit EConsoleError >>>
     new_Notice (NoticeSaveFailed filePath)).

(** The [onClick] callback of the "Update JSON" button. *)
Definition onClick_updateJson : M unit :=
  let* t := get_ui in
  let filePath := claudeConfigPath (plugin_settings t) in
  if negb (JsString.truthy filePath) ||
     JsString.eqb (JsString.trim filePath) []
  then
    new_Notice NoticePathNotSet >>> return_
  else
    match McpJsonConfig t with
    | None => new_Notice NoticeNoConfigData >>> return_
    | Some config =>
        if (length (map fst config) =? 0)%nat then
          new_Notice NoticeNoConfigData >>> return_
        else
          let* filePath := expand_tilde filePath in
          update_file filePath config
    end.

(** ** Summaries of the handler, for the proofs

    The path, the disk and the events that the steps of the handler
    produce, as functions of the disk they start from. *)

(** The path the handler works on after the tilde expansion. *)
Definition tilde_target (filePath : jsstring) : jsstring :=
  if has_tilde filePath then
    match os_homedir h with
    | Some (c :: home) =>
        path_join pf
          [ c :: home;
            JsString.substring
              (if JsString.startsWith (js "~/") filePath then 2 else 1)
              filePath ]
    | _ => filePath
    end
  else filePath.

Definition tilde_events (filePath : jsstring) : list event :=
  if has_tilde filePath then
    match os_homedir h with
    | Some (_ :: _) => []
    | Some [] => [EConsoleWarn; ENotice NoticeNoHomeDirectory]
    | None => [EConsoleError; ENotice NoticeTildeExpansionError]
    end
  else [].

(** The directory step: whether it completes, the disk after it, its
    events. *)
Definition ensure_summary (dirPath : jsstring) (d : filesystem)
  : bool * filesystem * list event :=
  match d !! dirPath with
  | Some _ => (true, d, [EExistsSync dirPath])
  | None =>
      let chain := ancestors (length dirPath) dirPath in
      let evs := [ EExistsSync dirPath;
                   ENotice (NoticeCreatingDirectory dirPath);
                   EMkdirSync dirPath ] in
      if existsb (is_file d) chain then (false, d, evs)
      else (true, make_dirs chain d, evs)
  end.

(** The load step: the document, or [None] when the handler returns,
    and its events. *)
Definition load_summary (filePath : jsstring) (d : filesystem)
  : option value * list event :=
  match d !! filePath with
  | None => (Some (VObj []), [EExistsSync filePath])
  | Some Dir =>
      (Some (VObj []),
       [EExistsSync filePath; EReadFileSync filePath; ENotice NoticeReadError])
  | Some (File text) =>
      match JSON_parse pf text with
      | None =>
          (Some (VObj []),
           [EExistsSync filePath; EReadFileSync filePath; ENotice NoticeReadError])
      | Some doc =>
          if not_an_object doc then
            (None,
             [EExistsSync filePath; EReadFileSync filePath;
              ENotice (NoticeNotValidJson filePath)])
          else (Some doc, [EExistsSync filePath; EReadFileSync filePath])
      end
  end.

(** The document the handler passes to [JSON.stringify], when it gets
    that far. *)
Definition merged_document (filePath : jsstring)
    (config : list (jsstring * value)) (d : filesystem) : option value :=
  let '(ok, d1, _) := ensure_summary (path_dirname pf filePath) d in
  if ok then
    doc ← fst (load_summary filePath d1);
    merge_entry doc (assoc_get entryKey config)
  else None.

Definition events_failed (filePath : jsstring) : list event :=
  [EConsoleError; ENotice (NoticeSaveFailed filePath)].

(** The whole of [update_file]. *)
Definition update_summary (filePath : jsstring)
    (config : list (jsstring * value)) (d : filesystem)
  : outcome unit * filesystem * list event :=
  let '(ok, d1, ev1) := ensure_summary (path_dirname pf filePath) d in
  if ok then
    match load_summary filePath d1 with
    | (None, ev2) => (Return, d1, ev1 ++ ev2)
    | (Some doc, ev2) =>
        match merge_entry doc (assoc_get entryKey config) ≫= JSON_stringify with
        | None => (Ok tt, d1, ev1 ++ ev2 ++ events_failed filePath)
        | Some text =>
            if negb (is_dir d1 filePath) && is_dir d1 (path_dirname pf filePath)
            then (Ok tt, <[filePath := File text]> d1,
                  ev1 ++ ev2 ++
                  [EWriteFileSync filePath text; ENotice (NoticeUpdated filePath)])
            else (Ok tt, d1,
                  ev1 ++ ev2 ++ [EWriteFileSync filePath text] ++
                  events_failed filePath)
        end
    end
  else (Ok tt, d1, ev1 ++ events_failed filePath).

(** The JSON value that the text [JSON.stringify] prints for a value
    denotes: without the properties that are [undefined], with [null]
    for the elements that are, without the named properties of arrays,
    with [null] for the numbers that are not finite. *)
Fixpoint json_view (v : value) : value :=
  match v with
  | VUndefined => VNull
  | VNull => VNull
  | VBool b => VBool b
  | VNum n => if Number_isFinite pf n then VNum n else VNull
  | VStr s => VStr s
  | VArr elems _ => VArr (map json_view elems) []
  | VObj props =>
      VObj (omap (fun kv : jsstring * value =>
                    let (k, x) := kv in
                    if is_undefined x then None else Some (k, json_view x))
                 props)
  end.

(** The member of the denoted object that a property gives, if any. *)
Definition view_member (kv : jsstring * value) : option (jsstring * value) :=
  let (k, x) := kv in
  if is_undefined x then None else Some (k, json_view x).

(** A member whose value is its own denotation. *)
Definition view_fixed (kv : jsstring * value) : Prop := json_view kv.2 = kv.2.

(** The disk that [update_file] leaves. *)
Definition disk_after_update (filePath : jsstring)
    (config : list (jsstring * value)) (d : filesystem) : filesystem :=
  (update_summary filePath config d).1.2.

(** A handler runs to its end, whatever way it ends. *)
Definition run {A} (m : M A) (w : world) : world := snd (m w).

(** ** The rest of the plugin: loading, display, the path field *)

(** The Number 100 of [DEFAULT_SETTINGS]. *)
Variable hundred : number.

(** [DEFAULT_SETTINGS] *)
Definition DEFAULT_SETTINGS : MyPluginSettings :=
  {| claudeConfigPath := getDefaultClaudeConfigPath;
     uvPath := None;
     historyFolder := None;
     maxHistoryFiles := hundred |}.

(** The own properties of the object that [loadData()] gives, among the
    keys of the settings: [None] for a key that is not there. *)
Record saved_data := {
  data_claudeConfigPath : option jsstring;
  data_uvPath : option (option jsstring);
  data_historyFolder : option (option jsstring);
  data_maxHistoryFiles : option number
}.

(** [Object.assign({}, DEFAULT_SETTINGS, data)]; [data] is [None] when
    [loadData()] gives [null]. *)
Definition assign_settings (data : option saved_data) : MyPluginSettings :=
  match data with
  | None => DEFAULT_SETTINGS
  | Some r =>
      {| claudeConfigPath :=
           default (claudeConfigPath DEFAULT_SETTINGS) (data_claudeConfigPath r);
         uvPath := default (uvPath DEFAULT_SETTINGS) (data_uvPath r);
         historyFolder :=
           default (historyFolder DEFAULT_SETTINGS) (data_historyFolder r);
         maxHistoryFiles :=
           default (maxHistoryFiles DEFAULT_SETTINGS) (data_maxHistoryFiles r) |}
  end.

(** [loadSettings()], with what [loadData()] gives. *)
Definition loadSettings (data : option saved_data) : M unit :=
  let* t := get_ui in
  put_ui (set_plugin_settings (assign_settings data) t).

(** The texts of the two disabled fields of
    [_buildLocalRestApiCredentials]: [credentials.url || 'Not
    available'] and the same of the key. *)
Definition shown_url (c : credentials) : jsstring :=
  match url c with
  | Some u => if JsString.truthy u then u else js "Not available"
  | None => js "Not available"
  end.

Definition shown_apiKey (c : credentials) : jsstring :=
  match apiKey c with
  | Some k => if JsString.truthy k then k else js "Not available"
  | None => js "Not available"
  end.

(** [_updateUvPathWarningDisplay(warningElement, currentUvPath)]:
    whether the warning is displayed. *)
Definition _updateUvPathWarningDisplay (currentUvPath : jsstring) : bool :=
  JsString.eqb currentUvPath [].

(** [this.plugin.settings.uvPath || ''], what [_buildUvPathSetting]
    puts in the field and passes to the warning at first. *)
Definition uvPath_or_empty (s : MyPluginSettings) : jsstring :=
  match uvPath s with
  | Some p => if JsString.truthy p then p else []
  | None => []
  end.

Definition set_claudeConfigPath (p : jsstring) (s : MyPluginSettings)
  : MyPluginSettings :=
  {| claudeConfigPath := p; uvPath := uvPath s;
     historyFolder := historyFolder s; maxHistoryFiles := maxHistoryFiles s |}.

(** The [input] listener of the path field of
    [_buildClaudeConfigPathSetting]. *)
Definition onInput_claudeConfigPath (value : jsstring) : M unit :=
  let* t := get_ui in
  put_ui (set_plugin_settings
            (set_claudeConfigPath (JsString.trim value) (plugin_settings t)) t) >>>
  saveSettings.

(** [display()], as far as the state goes: [_buildPluginSettingsUI]
    puts the string of the limit in its field, [_buildMcpJsonConfigUI]
    creates the text area and fills it with the credentials looked up
    once. *)
Definition display : M unit :=
  let* t := get_ui in
  put_ui (set_maxHistoryText
            (Number_toString pf (maxHistoryFiles (plugin_settings t))) t) >>>
  _buildMcpJsonConfigUI getLocalRestApiCredentials.

(** What the user does on the settings page. *)
Inductive action :=
| EditUvPath (value : jsstring)
| EditHistoryFolder (value : jsstring)
| EditMaxHistoryFiles (value : jsstring)
| InputConfigPath (value : jsstring)
| ClickUpdateJson
| ClickReload.

Definition perform (a : action) : M unit :=
  match a with
  | EditUvPath value => onChange_uvPath value
  | EditHistoryFolder value => onChange_historyFolder value
  | EditMaxHistoryFiles value => edit_maxHistoryFiles value
  | InputConfigPath value => onInput_claudeConfigPath value
  | ClickUpdateJson => onClick_updateJson
  | ClickReload => display
  end.

(** The actions one after the other, each handler run to its end. *)
Definition perform_all (acts : list action) (w : world) : world :=
  foldl (fun w a => run (perform a) w) w acts.

(** The events of a run from [w] to [w']. *)
Definition new_events (w w' : world) : list event :=
  drop (length (trace w)) (trace w').

(** The calls and notices the update of the file at [p] may make: the
    file system is asked about [p] and its parent only, and nothing is
    saved. *)
Definition update_event (p : jsstring) (e : event) : Prop :=
  match e with
  | EExistsSync q => q = p \/ q = path_dirname pf p
  | EMkdirSync q => q = path_dirname pf p
  | EReadFileSync q => q = p
  | EWriteFileSync q _ => q = p
  | ESaveData _ => False
  | ENotice _ | EConsoleWarn | EConsoleError => True
  end.

(** The settings the fields can leave: a limit that passes the test of
    its field, a history folder that is [null] or a trimmed, non-empty
    string. *)
Definition valid_limit (s : MyPluginSettings) : Prop :=
  Number_isNaN pf (maxHistoryFiles s) = false /\
  Number_ge0 pf (maxHistoryFiles s) = true.

Definition normal_folder (s : MyPluginSettings) : Prop :=
  match historyFolder s with
  | None => True
  | Some f => f <> [] /\ JsString.trim f = f
  end.

(** The page shows the fragment of the settings: the stored
    configuration and the text of the text area are the ones computed
    from the settings as they are. *)
Definition shows_current (w : world) : Prop :=
  let config :=
    [ (entryKey, fragment (plugin_settings (ui w)) getLocalRestApiCredentials) ] in
  McpJsonConfig (ui w) = Some config /\
  configTextArea (ui w) = Some (serialize [] (VObj config)).

End Model.

Arguments value : clear implicits.
Arguments platform : clear implicits.
Arguments MyPluginSettings : clear implicits.
Arguments LocalRestApiPlugin_settings : clear implicits.
Arguments host : clear implicits.
Arguments tab : clear implicits.
Arguments event : clear implicits.
Arguments world : clear implicits.
Arguments M : clear implicits.
Arguments saved_data : clear implicits.
Arguments Ok {A} a.
Arguments Throw {A}.
Arguments Return {A}.

(** ** A reference platform

    A platform to run the model on: numbers are the integers and NaN,
    paths are POSIX paths, and [JSON.parse] reads the JSON texts whose
    numbers are integers written without fraction and exponent (it
    answers [None] on every other text). *)

Module Reference.

Inductive number := NaN | Int (z : Z).

Definition is_digit (c : N) : bool := (48 <=? c) && (c <=? 57).

Fixpoint digits_value (acc : N) (ds : jsstring) : N :=
  match ds with
  | [] => acc
  | c :: r => digits_value (10 * acc + (c - 48)) r
  end.

Fixpoint take_digits (s : jsstring) : jsstring * jsstring :=
  match s with
  | c :: r =>
      if is_digit c then let (ds, rest) := take_digits r in (c :: ds, rest)
      else ([], s)
  | [] => ([], [])
  end.

(** [parseInt(s, 10)]: leading white space, an optional sign, the
    longest run of decimal digits; NaN when that run is empty. *)
Definition parseInt10 (s : jsstring) : number :=
  let s := JsString.trimStart s in
  let (negative, s) :=
    match s with
    | 45 :: r => (true, r)
    | 43 :: r => (false, r)
    | _ => (false, s)
    end in
  match fst (take_digits s) with
  | [] => NaN
  | ds =>
      let n := Z.of_N (digits_value 0 ds) in
      Int (if negative then (- n)%Z else n)
  end.

Definition Number_isNaN (n : number) : bool :=
  match n with NaN => true | Int _ => false end.

Definition Number_ge0 (n : number) : bool :=
  match n with NaN => false | Int z => (0 <=? z)%Z end.

Definition Number_isFinite (n : number) : bool :=
  match n with NaN => false | Int _ => true end.

Fixpoint uint_units (d : Decimal.uint) : jsstring :=
  match d with
  | Decimal.Nil => []
  | Decimal.D0 r => 48 :: uint_units r
  | Decimal.D1 r => 49 :: uint_units r
  | Decimal.D2 r => 50 :: uint_units r
  | Decimal.D3 r => 51 :: uint_units r
  | Decimal.D4 r => 52 :: uint_units r
  | Decimal.D5 r => 53 :: uint_units r
  | Decimal.D6 r => 54 :: uint_units r
  | Decimal.D7 r => 55 :: uint_units r
  | Decimal.D8 r => 56 :: uint_units r
  | Decimal.D9 r => 57 :: uint_units r
  end.

Definition Number_toString (n : number) : jsstring :=
  match n with
  | NaN => js "NaN"
  | Int z =>
      (if (z <? 0)%Z then [45] else []) ++ uint_units (N.to_uint (Z.abs_N z))
  end.

(** *** POSIX paths *)

Definition slash : N := 47.

Definition is_slash (c : N) : bool := c =? slash.

Fixpoint drop_while (f : N -> bool) (s : jsstring) : jsstring :=
  match s with
  | c :: r => if f c then drop_while f r else s
  | [] => []
  end.

(** [path.posix.dirname] *)
Definition dirname (p : jsstring) : jsstring :=
  match p with
  | [] => js "."
  | c :: r =>
      let hasRoot := is_slash c in
      (* scan from the end down to index 1: trailing slashes, then the
         last component, then the slash in front of it *)
      let back := drop_while is_slash (rev r) in
      let back := drop_while (fun x => negb (is_slash x)) back in
      match back with
      | [] => if hasRoot then js "/" else js "."
      | _ :: front =>
          match front with
          | [] => if hasRoot then js "//" else [c]
          | _ => c :: rev front
          end
      end
  end.

Fixpoint split_slash (cur : jsstring) (s : jsstring) : list jsstring :=
  match s with
  | [] => [cur]
  | c :: r =>
      if is_slash c then cur :: split_slash [] r
      else split_slash (cur ++ [c]) r
  end.

(** The segments of normalizeString, last one first. *)
Fixpoint normalize_segments (allowAboveRoot : bool)
    (stack : list jsstring) (segs : list jsstring) : list jsstring :=
  match segs with
  | [] => stack
  | seg :: r =>
      if JsString.eqb seg [] || JsString.eqb seg (js ".") then
        normalize_segments allowAboveRoot stack r
      else if JsString.eqb seg (js "..") then
        match stack with
        | top :: below =>
            if JsString.eqb top (js "..")
            then normalize_segments allowAboveRoot (seg :: stack) r
            else normalize_segments allowAboveRoot below r
        | [] =>
            if allowAboveRoot
            then normalize_segments allowAboveRoot [seg] r
            else normalize_segments allowAboveRoot [] r
        end
      else normalize_segments allowAboveRoot (seg :: stack) r
  end.

Fixpoint join_with (sep : jsstring) (parts : list jsstring) : jsstring :=
  match parts with
  | [] => []
  | [p] => p
  | p :: r => p ++ sep ++ join_with sep r
  end.

(** [path.posix.normalize] *)
Definition normalize (p : jsstring) : jsstring :=
  match p with
  | [] => js "."
  | c :: _ =>
      let isAbsolute := is_slash c in
      let trailingSeparator :=
        match rev p with x :: _ => is_slash x | [] => false end in
      let body :=
        join_with [slash]
          (rev (normalize_segments (negb isAbsolute) [] (split_slash [] p))) in
      match body with
      | [] =>
          if isAbsolute then js "/"
          else if trailingSeparator then js "./" else js "."
      | _ =>
          let body := if trailingSeparator then body ++ [slash] else body in
          if isAbsolute then slash :: body else body
      end
  end.

(** [path.posix.join] *)
Definition path_join (parts : list jsstring) : jsstring :=
  match filter (fun p => JsString.truthy p = true) parts with
  | [] => js "."
  | ps => normalize (join_with [slash] ps)
  end.

(** *** JSON texts *)

Abbreviation value := (value number).

(** JSON white space: space, tab, line feed, carriage return *)
Definition is_json_space (c : N) : bool :=
  (c =? 32) || (c =? 9) || (c =? 10) || (c =? 13).

Definition skip_space (s : jsstring) : jsstring := drop_while is_json_space s.

Definition hex_value (c : N) : option N :=
  if (48 <=? c) && (c <=? 57) then Some (c - 48)
  else if (97 <=? c) && (c <=? 102) then Some (c - 87)
  else if (65 <=? c) && (c <=? 70) then Some (c - 55)
  else None.

(** The characters of a string literal after its opening quote, up to
    the closing quote. *)
Fixpoint parse_string (fuel : nat) (s : jsstring) (acc : jsstring)
  : option (jsstring * jsstring) :=
  match fuel with
  | O => None
  | S f =>
      match s with
      | 34 :: r => Some (acc, r)
      | 92 :: 117 :: a :: b :: c :: d :: r =>
          a ← hex_value a; b ← hex_value b; c ← hex_value c; d ← hex_value d;
          parse_string f r (acc ++ [4096 * a + 256 * b + 16 * c + d])
      | 92 :: e :: r =>
          u ← (if e =? 34 then Some 34
               else if e =? 92 then Some 92
               else if e =? 47 then Some 47
               else if e =? 98 then Some 8
               else if e =? 102 then Some 12
               else if e =? 110 then Some 10
               else if e =? 114 then Some 13
               else if e =? 116 then Some 9
               else None);
          parse_string f r (acc ++ [u])
      | c :: r => if c <? 32 then None else parse_string f r (acc ++ [c])
      | [] => None
      end
  end.

(** An integer literal: an optional minus sign and digits without a
    leading zero; a fraction or an exponent after it is not read. *)
Definition parse_integer (s : jsstring) : option (number * jsstring) :=
  let (negative, s) :=
    match s with 45 :: r => (true, r) | _ => (false, s) end in
  let (ds, rest) := take_digits s in
  match ds with
  | [] => None
  | d :: more =>
      if (d =? 48) && JsString.truthy more then None
      else
        match rest with
        | 46 :: _ | 101 :: _ | 69 :: _ => None
        | _ =>
            let n := Z.of_N (digits_value 0 ds) in
            Some (Int (if negative then (- n)%Z else n), rest)
        end
  end.

Definition expect (word : jsstring) (v : value) (s : jsstring)
  : option (value * jsstring) :=
  if JsString.startsWith word s then Some (v, drop (length word) s) else None.

Fixpoint parse_value (fuel : nat) (s : jsstring) : option (value * jsstring) :=
  match fuel with
  | O => None
  | S f =>
      match skip_space s with
      | (110 :: _) as s => expect (js "null") VNull s
      | (116 :: _) as s => expect (js "true") (VBool true) s
      | (102 :: _) as s => expect (js "false") (VBool false) s
      | 34 :: r =>
          '(str, rest) ← parse_string (length r) r [];
          Some (VStr str, rest)
      | 91 :: r =>
          match skip_space r with
          | 93 :: rest => Some (VArr [] [], rest)
          | _ => parse_elements f r []
          end
      | 123 :: r =>
          match skip_space r with
          | 125 :: rest => Some (VObj [], rest)
          | _ => parse_members f r []
          end
      | s =>
          '(n, rest) ← parse_integer s;
          Some (VNum n, rest)
      end
  end
with parse_elements (fuel : nat) (s : jsstring) (acc : list value)
  : option (value * jsstring) :=
  match fuel with
  | O => None
  | S f =>
      '(v, rest) ← parse_value f s;
      match skip_space rest with
      | 44 :: rest => parse_elements f rest (acc ++ [v])
      | 93 :: rest => Some (VArr (acc ++ [v]) [], rest)
      | _ => None
      end
  end
with parse_members (fuel : nat) (s : jsstring) (acc : list (jsstring * value))
  : option (value * jsstring) :=
  match fuel with
  | O => None
  | S f =>
      match skip_space s with
      | 34 :: r =>
          '(key, rest) ← parse_string (length r) r [];
          match skip_space rest with
          | 58 :: rest =>
              '(v, rest) ← parse_value f rest;
              match skip_space rest with
              | 44 :: rest => parse_members f rest (assoc_set key v acc)
              | 125 :: rest => Some (VObj (assoc_set key v acc), rest)
              | _ => None
              end
          | _ => None
          end
      | _ => None
      end
  end.

(** [JSON.parse(text)] on the texts described above. *)
Definition JSON_parse (text : jsstring) : option value :=
  '(v, rest) ← parse_value (S (length text)) text;
  match skip_space rest with
  | [] => Some v
  | _ => None
  end.

Definition platform : platform number :=
  @Build_platform number parseInt10 Number_isNaN Number_ge0 Number_isFinite
    Number_toString JSON_parse path_join dirname.

End Reference.

(** ** Example states on the reference platform *)

Module Examples.

Import Reference.

Definition rest_api : LocalRestApiPlugin_settings number :=
  {| port := Int 27124; settings_apiKey := js "0123abcd" |}.

(** A macOS host with the companion plugin and a home directory. *)
Definition host_mac : host number :=
  {| local_rest_api := Some (Some rest_api);
     basePath := js "/Users/u/vault";
     manifest_dir := js ".obsidian/plugins/obsidian-mcp-server";
     os_homedir := Some (js "/Users/u");
     isMacOS := true;
     isWin := false |}.

(** The same host when [os.homedir()] gives the empty string. *)
Definition host_no_home : host number :=
  {| local_rest_api := Some (Some rest_api);
     basePath := js "/Users/u/vault";
     manifest_dir := js ".obsidian/plugins/obsidian-mcp-server";
     os_homedir := Some [];
     isMacOS := true;
     isWin := false |}.

(** [DEFAULT_SETTINGS] with the configuration path [path]. *)
Definition settings_with (path : jsstring) : MyPluginSettings number :=
  {| claudeConfigPath := path;
     uvPath := None;
     historyFolder := None;
     maxHistoryFiles := Int 100 |}.

(** The tab when the settings page has been displayed: the text area
    exists and the fragment has been computed. *)
Definition displayed (hst : host number) (path : jsstring) (d : filesystem)
  : world number :=
  run (_buildMcpJsonConfigUI platform hst
         (getLocalRestApiCredentials platform hst))
    {| ui := {| plugin_settings := settings_with path;
                McpJsonConfig := None;
                configTextArea := None;
                maxHistoryText := js "100" |};
       disk := d;
       trace := [] |}.

Definition config_path : jsstring := js "/Users/u/Claude/config.json".
Definition config_dir : jsstring := js "/Users/u/Claude".

(** A disk with the configuration file holding [text]. *)
Definition disk_with (text : jsstring) : filesystem :=
  <[config_path := File text]>
    (<[config_dir := Dir]>
       (<[js "/Users/u" := Dir]> (<[js "/Users" := Dir]> (<[js "/" := Dir]> ∅)))).

(** A text written with an apostrophe wherever it has a double quote. *)
Definition quoted (s : jsstring) : jsstring :=
  map (fun c => if c =? 39 then 34 else c) s.

(** The document of the preservation example. *)
Definition preservation_text : jsstring :=
  quoted (js "{'unrelated': 1, 'mcpServers': {'other': {'x':1}}}").

(** The fragment of the example states. *)
Definition example_config (hst : host number) (path : jsstring)
  : list (jsstring * value) :=
  [ (entryKey,
     fragment platform hst (settings_with path)
       (getLocalRestApiCredentials platform hst)) ].

(** A disk where a regular file stands where the directory of the
    configuration file has to be created. *)
Definition disk_blocked : filesystem :=
  <[js "/Users/u" := File []]>
    (<[js "/Users" := Dir]> (<[js "/" := Dir]> ∅)).

(** A disk where the path of the configuration file is a directory. *)
Definition disk_dir_at_target : filesystem :=
  <[config_path := Dir]> (disk_with []).

(** A document with an array under [mcpServers]. *)
Definition array_servers_text : jsstring :=
  quoted (js "{'mcpServers': [1]}").

(** The state before the page is displayed. *)
Definition initial (path : jsstring) (d : filesystem) : world number :=
  {| ui := {| plugin_settings := settings_with path;
              McpJsonConfig := None;
              configTextArea := None;
              maxHistoryText := [] |};
     disk := d;
     trace := [] |}.

(** Two edits. *)
Definition example_edits : list action :=
  [ EditHistoryFolder (js " mcp-history "); EditMaxHistoryFiles (js "7") ].

(** A session on the settings page. *)
Definition example_session : list action :=
  [ EditMaxHistoryFiles (js "-5");
    EditHistoryFolder (js "  mcp-history ");
    EditMaxHistoryFiles (js "7");
    InputConfigPath (js " /Users/u/Claude/config.json");
    ClickReload;
    ClickUpdateJson ].

End Examples.

(** * Properties *)

Section Properties.

Context {number : Type}.
Variable pf : platform number.
Variable h : host number.

Local Abbreviation value := (value number).
Local Abbreviation world := (world number).

Arguments JsString.of_ascii : simpl never.
Arguments JsString.eqb : simpl never.
Arguments entryKey : simpl never.

(** ** Fragment synthesis *)

Lemma run_display (c : credentials) (w : world) :
  let config := [ (entryKey, fragment pf h (plugin_settings (ui w)) c) ] in
  McpJsonConfig (ui (run (_updateMcpJsonConfigDisplay pf h c) w)) = Some config /\
  plugin_settings (ui (run (_updateMcpJsonConfigDisplay pf h c) w))
    = plugin_settings (ui w) /\
  configTextArea (ui (run (_updateMcpJsonConfigDisplay pf h c) w))
    = match configTextArea (ui w) with
      | None => None
      | Some _ => Some (serialize pf [] (VObj config))
      end.
Proof.
  unfold run, _updateMcpJsonConfigDisplay, bind, get_ui, put_ui; simpl.
  destruct (configTextArea (ui w)) eqn:E; simpl; rewrite ?E; auto.
Qed.

(** C7: after [_updateMcpJsonConfigDisplay], the fragment stored under
    the entry key has [command] equal to the configured uv path when
    that is a non-empty string and to ["uv"] otherwise, and an [env]
    object with exactly the four keys: the credential key and url and
    the history folder, each [null] when it is absent, and the string
    of the history-file limit. *)
Theorem fragment_command_and_env (w : world) (c : credentials) :
  let s := plugin_settings (ui w) in
  exists args env,
    McpJsonConfig (ui (run (_updateMcpJsonConfigDisplay pf h c) w)) =
      Some [ (entryKey,
              VObj [ (js "command",
                      VStr (match uvPath s with
                            | Some (u :: p) => u :: p
                            | _ => js "uv"
                            end));
                     (js "args", args);
                     (js "env", VObj env) ]) ] /\
    map fst env = [ js "OBSIDIAN_API_KEY"; js "OBSIDIAN_HOST";
                    js "OBSIDIAN_HISTORY_FOLDER";
                    js "OBSIDIAN_MAX_HISTORY_FILES" ] /\
    assoc_get (js "OBSIDIAN_HOST") env =
      match url c with Some u => VStr u | None => VNull end /\
    assoc_get (js "OBSIDIAN_API_KEY") env =
      match apiKey c with Some k => VStr k | None => VNull end /\
    assoc_get (js "OBSIDIAN_HISTORY_FOLDER") env =
      match historyFolder s with Some f => VStr f | None => VNull end /\
    assoc_get (js "OBSIDIAN_MAX_HISTORY_FILES") env =
      VStr (Number_toString pf (maxHistoryFiles s)).
Proof.
  intros s.
  destruct (run_display c w) as (Hc & _ & _).
  rewrite Hc. unfold fragment. fold s.
  eexists _, _. split.
  - destruct (uvPath s) as [[|u p]|]; reflexivity.
  - repeat split; reflexivity.
Qed.

(** Without the companion plugin (or without its settings) both
    credentials are [null]. *)
Lemma credentials_unavailable :
  (local_rest_api h = None \/ local_rest_api h = Some None) ->
  getLocalRestApiCredentials pf h = {| url := None; apiKey := None |}.
Proof. unfold getLocalRestApiCredentials. intros [-> | ->]; reflexivity. Qed.

(** C9: two runs of [_updateMcpJsonConfigDisplay] with equal settings
    and equal credentials store the same fragment and put the same text
    in the text area, whatever else differs between the two states. *)
Theorem synthesis_deterministic (w1 w2 : world) (c1 c2 : credentials) :
  plugin_settings (ui w1) = plugin_settings (ui w2) ->
  c1 = c2 ->
  McpJsonConfig (ui (run (_updateMcpJsonConfigDisplay pf h c1) w1)) =
  McpJsonConfig (ui (run (_updateMcpJsonConfigDisplay pf h c2) w2)) /\
  forall t1 t2,
    configTextArea (ui (run (_updateMcpJsonConfigDisplay pf h c1) w1)) = Some t1 ->
    configTextArea (ui (run (_updateMcpJsonConfigDisplay pf h c2) w2)) = Some t2 ->
    t1 = t2.
Proof.
  intros Hs ->.
  destruct (run_display c2 w1) as (Hc1 & _ & Ht1).
  destruct (run_display c2 w2) as (Hc2 & _ & Ht2).
  rewrite Hc1, Hc2, Ht1, Ht2, Hs. split; [reflexivity|].
  intros t1 t2.
  destruct (configTextArea (ui w1)), (configTextArea (ui w2)); congruence.
Qed.

(** ** The "Max History Files" field *)

(** C8, as the handler has it: an input for which [parseInt] gives NaN
    or a negative number changes neither the settings nor the stored
    fragment nor the text area nor the disk, nothing is saved, the user
    gets the notice, and the field shows the string of the stored limit:
    the value it showed before, if it was showing that string. *)
Theorem invalid_maxHistoryFiles_rejected (w : world) (value : jsstring) :
  Number_isNaN pf (parseInt10 pf value) = true \/
  Number_ge0 pf (parseInt10 pf value) = false ->
  let w' := run (edit_maxHistoryFiles pf h value) w in
  plugin_settings (ui w') = plugin_settings (ui w) /\
  McpJsonConfig (ui w') = McpJsonConfig (ui w) /\
  configTextArea (ui w') = configTextArea (ui w) /\
  maxHistoryText (ui w') =
    Number_toString pf (maxHistoryFiles (plugin_settings (ui w))) /\
  (maxHistoryText (ui w) =
     Number_toString pf (maxHistoryFiles (plugin_settings (ui w))) ->
   maxHistoryText (ui w') = maxHistoryText (ui w)) /\
  disk w' = disk w /\
  trace w' = trace w ++ [ENotice NoticeInvalidInteger].
Proof.
  intros Hbad w'. subst w'.
  unfold run, edit_maxHistoryFiles, onChange_maxHistoryFiles, bind, get_ui, put_ui.
  simpl.
  assert (Hguard : negb (Number_isNaN pf (parseInt10 pf value))
                   && Number_ge0 pf (parseInt10 pf value) = false).
  { destruct Hbad as [-> | ->]; [reflexivity | apply andb_false_r]. }
  rewrite Hguard. simpl. repeat split. by intros ->.
Qed.

(** ** The "Update JSON" button: the two guards *)

Lemma trim_falsy (p : jsstring) :
  JsString.truthy p = false -> JsString.trim p = [].
Proof. destruct p; [reflexivity | discriminate]. Qed.

(** C10: when the configured path is empty or blank, or no
    configuration has been computed (the field is [undefined] or an
    object without keys), the handler shows an error notice and does
    nothing else: the state, the disk and the trace are as before but
    for that notice, so nothing was looked up, created, read or
    written. *)
Theorem update_guards (w : world) :
  JsString.trim (claudeConfigPath (plugin_settings (ui w))) = [] \/
  McpJsonConfig (ui w) = None \/
  McpJsonConfig (ui w) = Some [] ->
  exists n,
    (n = NoticePathNotSet \/ n = NoticeNoConfigData) /\
    run (onClick_updateJson pf h) w = log [ENotice n] w.
Proof.
  intros Hcase.
  unfold run, onClick_updateJson, bind, get_ui, new_Notice, emit, return_.
  simpl.
  destruct (negb (JsString.truthy (claudeConfigPath (plugin_settings (ui w))))
            || JsString.eqb (JsString.trim (claudeConfigPath (plugin_settings (ui w)))) [])
    eqn:Hblank.
  - exists NoticePathNotSet. simpl. auto.
  - destruct Hcase as [Htrim | [Hnone | Hempty]].
    + rewrite Htrim in Hblank. rewrite orb_true_r in Hblank. discriminate.
    + rewrite Hnone. exists NoticeNoConfigData. simpl. auto.
    + rewrite Hempty. exists NoticeNoConfigData. simpl. auto.
Qed.

(** ** Properties of objects *)

Lemma eqb_eq (a b : jsstring) : a = b -> JsString.eqb a b = true.
Proof. intros. unfold JsString.eqb. by apply bool_decide_eq_true_2. Qed.

Lemma eqb_ne (a b : jsstring) : a <> b -> JsString.eqb a b = false.
Proof. intros. unfold JsString.eqb. by apply bool_decide_eq_false_2. Qed.

Lemma eqb_true (a b : jsstring) : JsString.eqb a b = true -> a = b.
Proof. unfold JsString.eqb. apply bool_decide_eq_true_1. Qed.

Ltac eqb_cases a b :=
  let E := fresh "E" in
  destruct (decide (a = b)) as [E|E];
  [ try (rewrite (eqb_eq a b E) in * ) | try (rewrite (eqb_ne a b E) in * ) ].

Lemma assoc_get_set_eq (k : jsstring) (v : value) props :
  assoc_get k (assoc_set k v props) = v.
Proof.
  induction props as [|[k' v'] r IH]; cbn [assoc_set assoc_get].
  - by rewrite eqb_eq.
  - eqb_cases k' k; cbn [assoc_get].
    + by rewrite eqb_eq.
    + by rewrite eqb_ne.
Qed.

Lemma assoc_get_set_ne (k k' : jsstring) (v : value) props :
  k <> k' -> assoc_get k' (assoc_set k v props) = assoc_get k' props.
Proof.
  intros Hne. induction props as [|[k0 v0] r IH]; cbn [assoc_set assoc_get].
  - by rewrite eqb_ne.
  - eqb_cases k0 k; cbn [assoc_get].
    + subst k0. by rewrite !eqb_ne.
    + destruct (JsString.eqb k0 k'); [reflexivity | exact IH].
Qed.

Lemma assoc_set_set (k : jsstring) (v v' : value) props :
  assoc_set k v (assoc_set k v' props) = assoc_set k v props.
Proof.
  induction props as [|[k0 v0] r IH]; cbn [assoc_set].
  - by rewrite eqb_eq.
  - eqb_cases k0 k; cbn [assoc_set].
    + by rewrite eqb_eq.
    + rewrite eqb_ne by assumption. by rewrite IH.
Qed.

(** The keys of an object after an assignment: the same keys in the same
    order when the key was there, one more at the end when it was
    not. *)
Lemma assoc_set_keys (k : jsstring) (v : value) props :
  map fst (assoc_set k v props) =
    if bool_decide (k ∈ map fst props) then map fst props
    else map fst props ++ [k].
Proof.
  induction props as [|[k0 v0] r IH]; cbn [assoc_set map fst].
  - rewrite bool_decide_eq_false_2; [reflexivity | apply not_elem_of_nil].
  - eqb_cases k0 k; cbn [map fst].
    + subst k0.
      rewrite bool_decide_eq_true_2; [reflexivity | apply list_elem_of_here].
    + rewrite IH.
      destruct (decide (k ∈ map fst r)) as [Hin|Hnin].
      * rewrite !bool_decide_eq_true_2; auto. by apply list_elem_of_further.
      * rewrite !bool_decide_eq_false_2; auto.
        intros Hin. apply elem_of_cons in Hin as [?|?]; congruence.
Qed.

Lemma assoc_set_NoDup (k : jsstring) (v : value) props :
  NoDup (map fst props) -> NoDup (map fst (assoc_set k v props)).
Proof.
  intros Hnd. rewrite assoc_set_keys. case_bool_decide as Hin; [exact Hnd|].
  apply NoDup_app. split; [exact Hnd|]. split.
  - intros x Hx Hx'. apply list_elem_of_singleton in Hx'. congruence.
  - apply NoDup_singleton.
Qed.

(** ** The merge on documents *)

Lemma merge_entry_object (props : list (jsstring * value)) (entry : value) :
  merge_entry (VObj props) entry =
    Some (VObj (assoc_set (js "mcpServers")
                  (merged_servers (assoc_get (js "mcpServers") props) entry)
                  props)).
Proof.
  unfold merge_entry. simpl.
  destruct (assoc_get (js "mcpServers") props) eqn:Hs; simpl;
    rewrite ?assoc_get_set_eq, ?Hs; simpl; rewrite ?assoc_set_set; reflexivity.
Qed.

Lemma merge_entry_array (elems : list value) (named : list (jsstring * value))
    (entry : value) :
  merge_entry (VArr elems named) entry =
    Some (VArr elems
            (assoc_set (js "mcpServers")
               (merged_servers (assoc_get (js "mcpServers") named) entry)
               named)).
Proof.
  unfold merge_entry. simpl.
  destruct (assoc_get (js "mcpServers") named) eqn:Hs; simpl;
    rewrite ?assoc_get_set_eq, ?Hs; simpl; rewrite ?assoc_set_set; reflexivity.
Qed.

(** The test of the source lets through exactly the objects and the
    arrays. *)
Lemma not_an_object_false (v : value) :
  not_an_object v = false <->
  (exists props, v = VObj props) \/ (exists elems named, v = VArr elems named).
Proof.
  split.
  - destruct v; simpl; try discriminate; eauto.
  - intros [[? ->] | (? & ? & ->)]; reflexivity.
Qed.

(** The merge never throws on a value that passed that test. *)
Lemma merge_entry_total (doc entry : value) :
  not_an_object doc = false -> is_Some (merge_entry doc entry).
Proof.
  intros H. apply not_an_object_false in H as [[? ->] | (? & ? & ->)].
  - rewrite merge_entry_object. eauto.
  - rewrite merge_entry_array. eauto.
Qed.

(** ** The handler on the file system *)

Create HintDb handler.
#[local] Hint Unfold update_file prepare_document load_fileConfig
  ensure_directory write_document expand_tilde try_catch bind existsSync readFileSync
  writeFileSync mkdirSync_recursive new_Notice emit get_disk put_disk
  get_ui put_ui lift_option ret throw return_ : handler.

Ltac unfold_handler := repeat autounfold with handler.

Lemma log_log (evs1 evs2 : list (event number)) (w : world) :
  log evs2 (log evs1 w) = log (evs1 ++ evs2) w.
Proof. unfold log. simpl. by rewrite app_assoc. Qed.

Lemma is_dir_true (d : filesystem) (p : jsstring) :
  is_dir d p = true <-> d !! p = Some Dir.
Proof.
  unfold is_dir. destruct (d !! p) as [[|]|]; split; congruence.
Qed.

Lemma is_file_true (d : filesystem) (p : jsstring) :
  is_file d p = true <-> exists text, d !! p = Some (File text).
Proof.
  unfold is_file. destruct (d !! p) as [[|]|]; split;
    try congruence; eauto; intros [? ?]; congruence.
Qed.

Lemma log_nil (w : world) : log [] w = w.
Proof. destruct w. unfold log. simpl. by rewrite app_nil_r. Qed.

Lemma set_disk_same (w : world) : set_disk (disk w) w = w.
Proof. by destruct w. Qed.

(** The tilde expansion never throws and never ends the handler. *)
Lemma expand_tilde_eq (filePath : jsstring) (w : world) :
  expand_tilde pf h filePath w =
    (Ok (tilde_target pf h filePath), log (tilde_events h filePath) w).
Proof.
  unfold expand_tilde, tilde_target, tilde_events.
  destruct (has_tilde filePath).
  - unfold_handler. destruct (os_homedir h) as [[|c home]|]; simpl.
    + by rewrite log_log.
    + by rewrite log_nil.
    + by rewrite log_log.
  - unfold ret. by rewrite log_nil.
Qed.

Lemma ensure_directory_eq (dirPath : jsstring) (w : world) :
  ensure_directory pf dirPath w =
    let '(ok, d, evs) := ensure_summary pf dirPath (disk w) in
    (if ok then Ok tt else Throw, set_disk d (log evs w)).
Proof.
  unfold ensure_directory, ensure_summary. unfold_handler. simpl.
  destruct (disk w !! dirPath) eqn:Hd; simpl.
  - reflexivity.
  - destruct (existsb (is_file (disk w)) (ancestors pf (length dirPath) dirPath));
      unfold set_disk, log; simpl; by rewrite <- !app_assoc.
Qed.

Lemma load_fileConfig_eq (p : jsstring) (w : world) :
  load_fileConfig pf p w =
    let '(o, evs) := load_summary pf p (disk w) in
    (match o with Some doc => Ok doc | None => Return end, log evs w).
Proof.
  unfold load_fileConfig, load_summary. unfold_handler. simpl.
  destruct (disk w !! p) as [[text|]|] eqn:Hp; simpl; rewrite ?Hp; simpl;
    rewrite ?log_log; try reflexivity.
  destruct (JSON_parse pf text) as [doc|]; simpl; rewrite ?log_log; try reflexivity.
  destruct (not_an_object doc); simpl; rewrite ?log_log; reflexivity.
Qed.

Lemma write_document_eq (p : jsstring) (doc : value) (w : world) :
  write_document pf p doc w =
    match JSON_stringify pf doc with
    | None => (Throw, w)
    | Some text =>
        if negb (is_dir (disk w) p) && is_dir (disk w) (path_dirname pf p)
        then (Ok tt,
              set_disk (<[p := File text]> (disk w))
                (log [EWriteFileSync p text; ENotice (NoticeUpdated p)] w))
        else (Throw, log [EWriteFileSync p text] w)
    end.
Proof.
  unfold write_document. unfold_handler.
  destruct (JSON_stringify pf doc) as [text|]; simpl; [|reflexivity].
  destruct (is_dir (disk w) p); simpl; [reflexivity|].
  destruct (is_dir (disk w) (path_dirname pf p)); simpl; [|reflexivity].
  unfold set_disk, log. simpl. by rewrite <- !app_assoc.
Qed.

(** [update_file] does what its summary says. *)
Lemma update_file_eq (p : jsstring) config (w : world) :
  update_file pf p config w =
    let '(o, d, evs) := update_summary pf p config (disk w) in
    (o, set_disk d (log evs w)).
Proof.
  unfold update_file, prepare_document, try_catch, bind, update_summary.
  rewrite ensure_directory_eq.
  destruct (ensure_summary pf (path_dirname pf p) (disk w)) as [[ok d1] ev1].
  destruct ok; simpl.
  - rewrite load_fileConfig_eq. simpl.
    destruct (load_summary pf p d1) as [[doc|] ev2]; simpl.
    + unfold lift_option.
      destruct (merge_entry doc (assoc_get entryKey config)) as [doc'|]; simpl.
      * rewrite write_document_eq. simpl.
        destruct (JSON_stringify pf doc') as [text|]; simpl.
        -- destruct (negb (is_dir d1 p) && is_dir d1 (path_dirname pf p)); simpl.
           ++ unfold set_disk, log. simpl. by rewrite <- !app_assoc.
           ++ unfold_handler. unfold set_disk, log, events_failed. simpl.
              by rewrite <- !app_assoc.
        -- unfold_handler. unfold set_disk, log, events_failed. simpl.
           by rewrite <- !app_assoc.
      * unfold_handler. unfold set_disk, log, events_failed. simpl.
        by rewrite <- !app_assoc.
    + unfold set_disk, log. simpl. by rewrite <- !app_assoc.
  - unfold_handler. unfold set_disk, log, events_failed. simpl.
    by rewrite <- !app_assoc.
Qed.

(** The handler past its two guards: the tilde expansion, then the
    update of the file at the path it gives. *)
Lemma onClick_updateJson_eq (w : world) config :
  JsString.trim (claudeConfigPath (plugin_settings (ui w))) <> [] ->
  McpJsonConfig (ui w) = Some config ->
  config <> [] ->
  let filePath := claudeConfigPath (plugin_settings (ui w)) in
  run (onClick_updateJson pf h) w =
    run (update_file pf (tilde_target pf h filePath) config)
        (log (tilde_events h filePath) w).
Proof.
  intros Htrim Hconfig Hne filePath. subst filePath.
  unfold run, onClick_updateJson, bind at 1, get_ui.
  cbn beta iota. cbn [ui fst snd].
  assert (JsString.truthy (claudeConfigPath (plugin_settings (ui w))) = true)
    as ->.
  { destruct (claudeConfigPath (plugin_settings (ui w))); [|reflexivity].
    exfalso. by apply Htrim. }
  rewrite (eqb_ne _ _ Htrim). cbn [negb orb]. rewrite Hconfig.
  destruct config as [|kv config']; [congruence|]. cbn [map length Nat.eqb].
  unfold bind. rewrite expand_tilde_eq. reflexivity.
Qed.

Lemma run_update_file (p : jsstring) config (w : world) :
  run (update_file pf p config) w =
    set_disk (update_summary pf p config (disk w)).1.2
      (log (update_summary pf p config (disk w)).2 w).
Proof.
  unfold run. rewrite update_file_eq.
  by destruct (update_summary pf p config (disk w)) as [[o d] evs].
Qed.

(** ** Tilde expansion when the home directory is not found *)

Lemma trimStart_keeps_last (s : jsstring) (c : N) :
  JsString.is_white c = false ->
  exists s', JsString.trimStart (s ++ [c]) = s' ++ [c].
Proof.
  intros Hc. induction s as [|a s IH]; simpl.
  - rewrite Hc. by exists [].
  - destruct (JsString.is_white a); [exact IH|]. by exists (a :: s).
Qed.

Lemma trim_nonwhite_head (c : N) (s : jsstring) :
  JsString.is_white c = false -> JsString.trim (c :: s) <> [].
Proof.
  intros Hc. unfold JsString.trim, JsString.trimEnd.
  cbn [JsString.trimStart]. rewrite Hc.
  destruct (rev (c :: s)) as [|x r] eqn:Hrev.
  { apply (f_equal length) in Hrev. rewrite length_rev in Hrev. discriminate. }
  cbn [JsString.trimStart].
  destruct (JsString.is_white x) eqn:Hx.
  - (* the last unit is white: the head [c] is further in *)
    assert (exists r', r = r' ++ [c]) as [r' ->].
    { change (c :: s) with ([c] ++ s) in Hrev. rewrite rev_app_distr in Hrev.
      simpl in Hrev. destruct (rev s) as [|y t] eqn:Hs; simpl in Hrev.
      - injection Hrev as <- <-. congruence.
      - injection Hrev as <- <-. by exists t. }
    destruct (trimStart_keeps_last r' c Hc) as [s' ->].
    rewrite rev_app_distr. discriminate.
  - intros Hnil. apply (f_equal length) in Hnil.
    rewrite length_rev in Hnil. discriminate.
Qed.

Lemma has_tilde_trim (filePath : jsstring) :
  has_tilde filePath = true -> JsString.trim filePath <> [].
Proof.
  unfold has_tilde. intros Ht.
  apply andb_true_iff in Ht as [_ Ht].
  destruct filePath as [|c s]; [discriminate|].
  assert (c = 126) as ->.
  { apply orb_true_iff in Ht as [Ht|Ht]; cbn in Ht;
      apply andb_true_iff in Ht as [Ht _]; by apply N.eqb_eq in Ht. }
  by apply trim_nonwhite_head.
Qed.

(** C2, as the handler has it: for a path that begins with [~/] or
    [~\], when the home directory is not found (the lookup gives the
    empty string, or throws), the handler tells the user that the tilde
    could not be expanded and goes on with the path as it is written:
    from there it does what the update of the file at that literal path
    does. *)
Theorem unresolved_home_continues (w : world) config :
  let filePath := claudeConfigPath (plugin_settings (ui w)) in
  has_tilde filePath = true ->
  os_homedir h = Some [] \/ os_homedir h = None ->
  McpJsonConfig (ui w) = Some config ->
  config <> [] ->
  exists evs,
    (evs = [EConsoleWarn; ENotice NoticeNoHomeDirectory] \/
     evs = [EConsoleError; ENotice NoticeTildeExpansionError]) /\
    run (onClick_updateJson pf h) w =
      run (update_file pf filePath config) (log evs w).
Proof.
  intros filePath Htilde Hhome Hconfig Hne.
  rewrite (onClick_updateJson_eq w config (has_tilde_trim _ Htilde) Hconfig Hne).
  fold filePath. unfold tilde_target, tilde_events. rewrite Htilde.
  destruct Hhome as [-> | ->].
  - exists [EConsoleWarn; ENotice NoticeNoHomeDirectory]. split; [by left | reflexivity].
  - exists [EConsoleError; ENotice NoticeTildeExpansionError]. split; [by right | reflexivity].
Qed.

(** ** The text and the value it denotes *)

(** Induction on values, through the elements of arrays and the members
    of objects. *)
Lemma value_nested_ind (P : value -> Prop) :
  P VUndefined -> P VNull -> (forall b, P (VBool b)) ->
  (forall n, P (VNum n)) -> (forall s, P (VStr s)) ->
  (forall elems named,
      Forall P elems -> Forall (fun kv => P kv.2) named -> P (VArr elems named)) ->
  (forall props, Forall (fun kv => P kv.2) props -> P (VObj props)) ->
  forall v, P v.
Proof.
  intros Hu Hn Hb Hnum Hs Harr Hobj.
  fix IH 1. intros v.
  destruct v as [| |b|n|s|elems named|props];
    [exact Hu | exact Hn | apply Hb | apply Hnum | apply Hs | |].
  - apply Harr.
    + induction elems as [|x l IHl]; constructor; [apply IH | exact IHl].
    + induction named as [|[k x] l IHl]; constructor; [apply IH | exact IHl].
  - apply Hobj.
    induction props as [|[k x] l IHl]; constructor; [apply IH | exact IHl].
Qed.

Lemma json_view_object (props : list (jsstring * value)) :
  json_view pf (VObj props) = VObj (omap (view_member pf) props).
Proof. reflexivity. Qed.

Lemma json_view_defined (v : value) : is_undefined (json_view pf v) = false.
Proof. destruct v; try reflexivity. simpl. by destruct (Number_isFinite pf n). Qed.

Lemma json_view_idem (v : value) : json_view pf (json_view pf v) = json_view pf v.
Proof.
  induction v as [| |b|n|s|elems named IHe _|props IHp] using value_nested_ind;
    try reflexivity.
  - simpl. destruct (Number_isFinite pf n) eqn:E; simpl; by rewrite ?E.
  - simpl. f_equal. rewrite map_map. apply map_ext_Forall. exact IHe.
  - rewrite !json_view_object. f_equal.
    induction props as [|[k x] props IH]; [reflexivity|].
    apply Forall_cons in IHp as [Hx Hr]. simpl in Hx. cbn [omap list_omap view_member].
    destruct (is_undefined x) eqn:Ex; cbn [omap list_omap view_member].
    + by apply IH.
    + rewrite json_view_defined, Hx. f_equal. by apply IH.
Qed.

(** The text of a value is the text of the value it denotes. *)
Lemma serialize_json_view (v : value) :
  forall indent, serialize pf indent (json_view pf v) = serialize pf indent v.
Proof.
  induction v as [| |b|n|s|elems named IHe _|props IHp] using value_nested_ind;
    intros indent; try reflexivity.
  - simpl. destruct (Number_isFinite pf n) eqn:E; simpl; by rewrite ?E.
  - cbn [json_view serialize].
    assert (Hmap : forall i, map (serialize pf i) (map (json_view pf) elems) =
                             map (serialize pf i) elems).
    { intros i. rewrite map_map. apply map_ext_Forall.
      eapply Forall_impl; [exact IHe|]. intros x Hx. apply Hx. }
    rewrite Hmap. by destruct elems.
  - rewrite json_view_object. cbn [serialize].
    assert (Hmem : forall i,
      omap (fun kv : jsstring * value =>
              let (k, x) := kv in
              if is_undefined x then None
              else Some (quote k ++ js ": " ++ serialize pf i x))
           (omap (view_member pf) props) =
      omap (fun kv : jsstring * value =>
              let (k, x) := kv in
              if is_undefined x then None
              else Some (quote k ++ js ": " ++ serialize pf i x)) props).
    { intros i. induction props as [|[k x] props IH]; [reflexivity|].
      apply Forall_cons in IHp as [Hx Hr]. simpl in Hx.
      cbn [omap list_omap view_member].
      destruct (is_undefined x) eqn:Ex; cbn [omap list_omap].
      - by apply IH.
      - rewrite json_view_defined, Hx. f_equal. by apply IH. }
    by rewrite Hmem.
Qed.

(** Setting a member leaves what the text shows under the other
    keys. *)
Lemma assoc_get_view_set_ne (k k' : jsstring) (y : value) props :
  k <> k' ->
  assoc_get k' (omap (view_member pf) (assoc_set k y props)) =
  assoc_get k' (omap (view_member pf) props).
Proof.
  intros Hne. induction props as [|[k0 v0] r IH]; cbn [assoc_set].
  - cbn [omap list_omap view_member]. destruct (is_undefined y); [done|].
    cbn [omap list_omap assoc_get]. by rewrite eqb_ne.
  - eqb_cases k0 k; cbn [omap list_omap view_member].
    + subst k0. destruct (is_undefined y), (is_undefined v0);
        cbn [omap list_omap assoc_get]; rewrite ?eqb_ne by done; done.
    + destruct (is_undefined v0); [exact IH|].
      cbn [omap list_omap assoc_get]. by rewrite IH.
Qed.

(** ** The existing file *)

Lemma merge_entry_empty (entry : value) :
  merge_entry (VObj []) entry =
    Some (VObj [ (js "mcpServers", VObj [ (entryKey, entry) ]) ]).
Proof. by rewrite merge_entry_object. Qed.

Lemma merge_entry_defined (doc entry doc' : value) :
  merge_entry doc entry = Some doc' ->
  is_undefined doc' = false /\ not_an_object doc' = false.
Proof.
  destruct doc; try discriminate.
  - rewrite merge_entry_array. by intros [= <-].
  - rewrite merge_entry_object. by intros [= <-].
Qed.

(** C4: for an existing file (in an existing directory) whose content
    [JSON.parse] rejects, the handler does not stop: it shows the notice
    that the file could not be read and that a new structure is created,
    writes the document whose only member is [mcpServers] with the entry
    alone, and then reports the update. *)
Theorem malformed_file_replaced (w : world) config text :
  let filePath := claudeConfigPath (plugin_settings (ui w)) in
  let p := tilde_target pf h filePath in
  JsString.trim filePath <> [] ->
  McpJsonConfig (ui w) = Some config ->
  config <> [] ->
  is_dir (disk w) (path_dirname pf p) = true ->
  disk w !! p = Some (File text) ->
  JSON_parse pf text = None ->
  let written :=
    serialize pf []
      (VObj [ (js "mcpServers",
               VObj [ (entryKey, assoc_get entryKey config) ]) ]) in
  run (onClick_updateJson pf h) w =
    set_disk (<[p := File written]> (disk w))
      (log (tilde_events h filePath ++
            [ EExistsSync (path_dirname pf p); EExistsSync p; EReadFileSync p;
              ENotice NoticeReadError;
              EWriteFileSync p written;
              ENotice (NoticeUpdated p) ]) w).
Proof.
  intros filePath p Htrim Hconfig Hne Hdir Hfile Hparse written.
  rewrite (onClick_updateJson_eq w config Htrim Hconfig Hne).
  fold filePath. fold p. rewrite run_update_file.
  pose proof Hdir as Hd. apply is_dir_true in Hd.
  unfold update_summary, ensure_summary, load_summary. cbn [disk log].
  rewrite Hd. cbn [fst snd]. rewrite Hfile, Hparse.
  rewrite merge_entry_empty. cbn [mbind option_bind JSON_stringify is_undefined].
  rewrite Hdir. unfold is_dir. rewrite Hfile. cbn [negb andb fst snd].
  unfold set_disk, log. cbn [ui disk trace]. by rewrite <- !app_assoc.
Qed.

(** The guard of the source rejects what is neither an object nor an
    array: such a file is left as it is, with a notice. *)
Lemma not_an_object_file_kept (w : world) config text (v : value) :
  let filePath := claudeConfigPath (plugin_settings (ui w)) in
  let p := tilde_target pf h filePath in
  JsString.trim filePath <> [] ->
  McpJsonConfig (ui w) = Some config ->
  config <> [] ->
  is_dir (disk w) (path_dirname pf p) = true ->
  disk w !! p = Some (File text) ->
  JSON_parse pf text = Some v ->
  not_an_object v = true ->
  run (onClick_updateJson pf h) w =
    log (tilde_events h filePath ++
         [ EExistsSync (path_dirname pf p); EExistsSync p; EReadFileSync p;
           ENotice (NoticeNotValidJson p) ]) w.
Proof.
  intros filePath p Htrim Hconfig Hne Hdir Hfile Hparse Hv.
  rewrite (onClick_updateJson_eq w config Htrim Hconfig Hne).
  fold filePath. fold p. rewrite run_update_file.
  pose proof Hdir as Hd. apply is_dir_true in Hd.
  unfold update_summary, ensure_summary, load_summary. cbn [disk log].
  rewrite Hd. cbn [fst snd]. rewrite Hfile, Hparse, Hv. cbn [fst snd].
  unfold set_disk, log. cbn [ui disk trace]. by rewrite <- !app_assoc.
Qed.

(** An array is let through by that guard: the handler sets
    [mcpServers] on the array, as a named property, and writes the
    array back. *)
Lemma array_file_rewritten (w : world) config text elems named :
  let filePath := claudeConfigPath (plugin_settings (ui w)) in
  let p := tilde_target pf h filePath in
  JsString.trim filePath <> [] ->
  McpJsonConfig (ui w) = Some config ->
  config <> [] ->
  is_dir (disk w) (path_dirname pf p) = true ->
  disk w !! p = Some (File text) ->
  JSON_parse pf text = Some (VArr elems named) ->
  let written := serialize pf [] (VArr elems []) in
  run (onClick_updateJson pf h) w =
    set_disk (<[p := File written]> (disk w))
      (log (tilde_events h filePath ++
            [ EExistsSync (path_dirname pf p); EExistsSync p; EReadFileSync p;
              EWriteFileSync p written;
              ENotice (NoticeUpdated p) ]) w).
Proof.
  intros filePath p Htrim Hconfig Hne Hdir Hfile Hparse written.
  rewrite (onClick_updateJson_eq w config Htrim Hconfig Hne).
  fold filePath. fold p. rewrite run_update_file.
  pose proof Hdir as Hd. apply is_dir_true in Hd.
  unfold update_summary, ensure_summary, load_summary. cbn [disk log].
  rewrite Hd. cbn [fst snd]. rewrite Hfile, Hparse.
  cbn [not_an_object typeof jstype_eqb negb is_null orb fst snd].
  rewrite merge_entry_array. cbn [mbind option_bind JSON_stringify is_undefined].
  rewrite Hdir. unfold is_dir. rewrite Hfile. cbn [negb andb fst snd].
  unfold set_disk, log. cbn [ui disk trace]. by rewrite <- !app_assoc.
Qed.

Lemma merged_servers_frame (servers entry : value) :
  match servers with
  | VObj props =>
      exists props',
        merged_servers servers entry = VObj props' /\
        (forall k, k <> entryKey -> assoc_get k props' = assoc_get k props) /\
        (forall k, k ∈ map fst props -> k ∈ map fst props') /\
        (forall k, k <> entryKey ->
           get_prop (json_view pf (VObj props')) k =
           get_prop (json_view pf (VObj props)) k) /\
        assoc_get entryKey props' = entry
  | VArr elems named =>
      exists named',
        merged_servers servers entry = VArr elems named' /\
        (forall k, k <> entryKey -> assoc_get k named' = assoc_get k named)
  | _ => merged_servers servers entry = VObj [ (entryKey, entry) ]
  end.
Proof.
  destruct servers; try reflexivity.
  - eexists. split; [reflexivity|]. intros k Hk. by apply assoc_get_set_ne.
  - eexists. split; [reflexivity|]. split; [|split; [|split]].
    + intros k Hk. by apply assoc_get_set_ne.
    + intros k Hk. rewrite assoc_set_keys. case_bool_decide; [done|].
      apply elem_of_app. by left.
    + intros k Hk. rewrite !json_view_object. cbn [get_prop]. f_equal.
      by apply assoc_get_view_set_ne.
    + apply assoc_get_set_eq.
Qed.

(** C3: for an existing file (in an existing directory) whose content
    parses to a JSON object, the handler writes an object that has every
    member of the old one, with the same value under every key other
    than [mcpServers]; and under [mcpServers], when the old value is an
    object, an object that has every member of the old one, with the
    same value under every key other than the entry key, and the
    fragment under the entry key; the same holds of the values that the
    written text and the parsed one denote.  (An array under
    [mcpServers] keeps its elements; any other value there is replaced
    by an object with the entry alone.) *)
Theorem merge_preserves_other_members (w : world) config text props :
  let filePath := claudeConfigPath (plugin_settings (ui w)) in
  let p := tilde_target pf h filePath in
  JsString.trim filePath <> [] ->
  McpJsonConfig (ui w) = Some config ->
  config <> [] ->
  is_dir (disk w) (path_dirname pf p) = true ->
  disk w !! p = Some (File text) ->
  JSON_parse pf text = Some (VObj props) ->
  exists props',
    run (onClick_updateJson pf h) w =
      set_disk (<[p := File (serialize pf [] (VObj props'))]> (disk w))
        (log (tilde_events h filePath ++
              [ EExistsSync (path_dirname pf p); EExistsSync p; EReadFileSync p;
                EWriteFileSync p (serialize pf [] (VObj props'));
                ENotice (NoticeUpdated p) ]) w) /\
    (forall k, k <> js "mcpServers" -> assoc_get k props' = assoc_get k props) /\
    (forall k, k ∈ map fst props -> k ∈ map fst props') /\
    (forall k, k <> js "mcpServers" ->
       get_prop (json_view pf (VObj props')) k =
       get_prop (json_view pf (VObj props)) k) /\
    match assoc_get (js "mcpServers") props with
    | VObj servers =>
        exists servers',
          assoc_get (js "mcpServers") props' = VObj servers' /\
          (forall k, k <> entryKey -> assoc_get k servers' = assoc_get k servers) /\
          (forall k, k ∈ map fst servers -> k ∈ map fst servers') /\
          (forall k, k <> entryKey ->
             get_prop (json_view pf (VObj servers')) k =
             get_prop (json_view pf (VObj servers)) k) /\
          assoc_get entryKey servers' = assoc_get entryKey config
    | VArr elems named =>
        exists named',
          assoc_get (js "mcpServers") props' = VArr elems named' /\
          (forall k, k <> entryKey -> assoc_get k named' = assoc_get k named)
    | _ =>
        assoc_get (js "mcpServers") props' =
          VObj [ (entryKey, assoc_get entryKey config) ]
    end.
Proof.
  intros filePath p Htrim Hconfig Hne Hdir Hfile Hparse.
  set (entry := assoc_get entryKey config).
  set (servers := assoc_get (js "mcpServers") props).
  exists (assoc_set (js "mcpServers") (merged_servers servers entry) props).
  split; [|split; [|split; [|split]]].
  - rewrite (onClick_updateJson_eq w config Htrim Hconfig Hne).
    fold filePath. fold p. rewrite run_update_file.
    pose proof Hdir as Hd. apply is_dir_true in Hd.
    unfold update_summary, ensure_summary, load_summary. cbn [disk log].
    rewrite Hd. cbn [fst snd]. rewrite Hfile, Hparse.
    cbn [not_an_object typeof jstype_eqb negb is_null orb fst snd].
    rewrite merge_entry_object. cbn [mbind option_bind JSON_stringify is_undefined].
    rewrite Hdir. unfold is_dir. rewrite Hfile. cbn [negb andb fst snd].
    unfold set_disk, log. cbn [ui disk trace]. by rewrite <- !app_assoc.
  - intros k Hk. apply assoc_get_set_ne. congruence.
  - intros k Hk. rewrite assoc_set_keys. case_bool_decide; [done|].
    apply elem_of_app. by left.
  - intros k Hk. rewrite !json_view_object. cbn [get_prop]. f_equal.
    apply assoc_get_view_set_ne. congruence.
  - rewrite assoc_get_set_eq.
    pose proof (merged_servers_frame servers entry) as Hframe.
    destruct servers; exact Hframe.
Qed.

(** ** The missing file *)

Lemma make_dirs_lookup_in (chain : list jsstring) (d : filesystem) q :
  q ∈ chain -> make_dirs chain d !! q = Some Dir.
Proof.
  induction chain as [|c chain IH]; intros Hq; [by apply elem_of_nil in Hq|].
  cbn [make_dirs foldr]. destruct (decide (c = q)) as [->|Hc].
  - apply lookup_insert_eq.
  - rewrite lookup_insert_ne by done. apply IH.
    apply elem_of_cons in Hq as [?|?]; [congruence|done].
Qed.

Lemma make_dirs_lookup_notin (chain : list jsstring) (d : filesystem) q :
  q ∉ chain -> make_dirs chain d !! q = d !! q.
Proof.
  induction chain as [|c chain IH]; intros Hq; [reflexivity|].
  cbn [make_dirs foldr]. apply not_elem_of_cons in Hq as [Hc Hq].
  rewrite lookup_insert_ne by done. by apply IH.
Qed.

Lemma ancestors_head (fuel : nat) (p : jsstring) : p ∈ ancestors pf fuel p.
Proof. destruct fuel; apply list_elem_of_here. Qed.

Lemma existsb_is_file_false (d : filesystem) (chain : list jsstring) q :
  existsb (is_file d) chain = false -> q ∈ chain -> is_file d q = false.
Proof.
  intros Hex Hq. destruct (is_file d q) eqn:E; [|done].
  assert (existsb (is_file d) chain = true); [|congruence].
  apply existsb_exists. exists q. split; [by apply list_elem_of_In|done].
Qed.

(** C5: when there is no file at the path, no regular file stands where
    the parent directory or one of its ancestors has to be, and the path
    is not among them, the handler creates the parent directory with all
    its ancestors if the parent does not exist, reads nothing, and
    writes the document whose only member is [mcpServers] with the entry
    alone; nothing else on the disk changes. *)
Theorem missing_file_created (w : world) config :
  let filePath := claudeConfigPath (plugin_settings (ui w)) in
  let p := tilde_target pf h filePath in
  let dirPath := path_dirname pf p in
  let chain := ancestors pf (length dirPath) dirPath in
  JsString.trim filePath <> [] ->
  McpJsonConfig (ui w) = Some config ->
  config <> [] ->
  disk w !! p = None ->
  existsb (is_file (disk w)) chain = false ->
  p ∉ chain ->
  let written :=
    serialize pf []
      (VObj [ (js "mcpServers",
               VObj [ (entryKey, assoc_get entryKey config) ]) ]) in
  let w' := run (onClick_updateJson pf h) w in
  disk w' !! p = Some (File written) /\
  disk w' !! dirPath = Some Dir /\
  (disk w !! dirPath = None -> forall q, q ∈ chain -> disk w' !! q = Some Dir) /\
  (forall q, q <> p -> q ∉ chain -> disk w' !! q = disk w !! q) /\
  trace w' =
    trace w ++ tilde_events h filePath ++
    (match disk w !! dirPath with
     | Some _ => [ EExistsSync dirPath ]
     | None => [ EExistsSync dirPath;
                 ENotice (NoticeCreatingDirectory dirPath);
                 EMkdirSync dirPath ]
     end) ++
    [ EExistsSync p; EWriteFileSync p written; ENotice (NoticeUpdated p) ].
Proof.
  intros filePath p dirPath chain Htrim Hconfig Hne Hfile Hchain Hp written w'.
  subst w'. rewrite (onClick_updateJson_eq w config Htrim Hconfig Hne).
  fold filePath. fold p. rewrite run_update_file.
  unfold update_summary, ensure_summary, load_summary. cbn [disk log].
  fold dirPath. fold chain. rewrite Hchain.
  pose proof (ancestors_head (length dirPath) dirPath) as Hhead. fold chain in Hhead.
  assert (Hin : forall q, q ∈ chain -> p <> q).
  { intros q Hq E. apply Hp. by rewrite E. }
  destruct (disk w !! dirPath) as [nd|] eqn:Hd.
  - (* the parent exists: it is a directory *)
    assert (nd = Dir) as ->.
    { pose proof (existsb_is_file_false _ _ _ Hchain Hhead) as Hf.
      unfold is_file in Hf. rewrite Hd in Hf. by destruct nd. }
    cbn [fst snd]. rewrite Hfile. cbn [fst snd].
    rewrite merge_entry_empty. cbn [mbind option_bind JSON_stringify is_undefined].
    unfold is_dir. rewrite Hfile, Hd. cbn [negb andb fst snd set_disk log disk trace].
    split; [apply lookup_insert_eq|]. split; [|split; [|split]].
    + rewrite lookup_insert_ne; [done|]. by apply Hin.
    + discriminate.
    + intros q Hq _. by rewrite lookup_insert_ne.
    + by rewrite <- !app_assoc.
  - (* the parent is created with its ancestors *)
    cbn [fst snd]. rewrite (make_dirs_lookup_notin chain (disk w) p Hp), Hfile.
    cbn [fst snd].
    rewrite merge_entry_empty. cbn [mbind option_bind JSON_stringify is_undefined].
    unfold is_dir. rewrite (make_dirs_lookup_notin chain (disk w) p Hp), Hfile.
    rewrite (make_dirs_lookup_in chain (disk w) dirPath Hhead).
    cbn [negb andb fst snd set_disk log disk trace].
    split; [apply lookup_insert_eq|]. split; [|split; [|split]].
    + rewrite lookup_insert_ne; [|by apply Hin].
      by apply make_dirs_lookup_in.
    + intros _ q Hq. rewrite lookup_insert_ne; [|by apply Hin].
      by apply make_dirs_lookup_in.
    + intros q Hq Hnin. rewrite lookup_insert_ne by done.
      by apply make_dirs_lookup_notin.
    + by rewrite <- !app_assoc.
Qed.

(** ** Merging twice *)

Lemma view_members_fixed (props : list (jsstring * value)) :
  Forall (view_fixed pf) (omap (view_member pf) props).
Proof.
  induction props as [|[k x] props IH]; [constructor|].
  cbn [omap list_omap view_member]. destruct (is_undefined x); [exact IH|].
  constructor; [apply json_view_idem | exact IH].
Qed.

Lemma view_fixed_members (props : list (jsstring * value)) :
  Forall (view_fixed pf) props -> omap (view_member pf) props = props.
Proof.
  induction 1 as [|[k x] props Hx _ IH]; [reflexivity|].
  unfold view_fixed in Hx. simpl in Hx. cbn [omap list_omap view_member].
  assert (is_undefined x = false) as ->.
  { rewrite <- Hx. apply json_view_defined. }
  cbn [omap list_omap]. by rewrite Hx, IH.
Qed.

Lemma assoc_get_view_set (k : jsstring) (y : value) props :
  is_undefined y = false ->
  assoc_get k (omap (view_member pf) (assoc_set k y props)) = json_view pf y /\
  k ∈ map fst (omap (view_member pf) (assoc_set k y props)).
Proof.
  intros Hy. induction props as [|[k0 v0] r IH]; cbn [assoc_set].
  - cbn [omap list_omap view_member]. rewrite Hy. cbn [assoc_get map fst].
    rewrite eqb_eq by done. split; [done | apply list_elem_of_here].
  - eqb_cases k0 k; cbn [omap list_omap view_member].
    + subst k0. rewrite Hy. cbn [assoc_get map fst].
      rewrite eqb_eq by done. split; [done | apply list_elem_of_here].
    + destruct (is_undefined v0); [exact IH|].
      cbn [assoc_get map fst]. rewrite eqb_ne by done.
      destruct IH as [IH1 IH2]. split; [done | by apply list_elem_of_further].
Qed.

Lemma view_set_fixed (k : jsstring) (x : value) props :
  Forall (view_fixed pf) props ->
  k ∈ map fst props ->
  json_view pf x = assoc_get k props ->
  is_undefined x = false ->
  omap (view_member pf) (assoc_set k x props) = props.
Proof.
  intros Hfix Hin Hx Hdef.
  induction Hfix as [|[k0 v0] r Hv0 Hr IH]; [by apply elem_of_nil in Hin|].
  unfold view_fixed in Hv0. simpl in Hv0.
  cbn [assoc_set assoc_get] in *. eqb_cases k0 k.
  - subst k0. cbn [omap list_omap view_member]. rewrite Hdef.
    cbn [omap list_omap]. by rewrite Hx, (view_fixed_members r Hr).
  - cbn [omap list_omap view_member].
    assert (is_undefined v0 = false) as ->.
    { rewrite <- Hv0. apply json_view_defined. }
    cbn [omap list_omap]. rewrite Hv0. f_equal. apply IH; [|done].
    cbn [map fst] in Hin. apply elem_of_cons in Hin as [?|?]; [congruence|done].
Qed.

(** Setting again, in the denoted object, a member whose value denotes
    the same, gives an object that denotes the same. *)
Lemma view_set_again (k : jsstring) (x y : value) props :
  is_undefined x = false -> is_undefined y = false ->
  json_view pf x = json_view pf y ->
  omap (view_member pf)
    (assoc_set k x (omap (view_member pf) (assoc_set k y props)))
  = omap (view_member pf) (assoc_set k y props).
Proof.
  intros Hx Hy Hxy.
  destruct (assoc_get_view_set k y props Hy) as [Hget Hin].
  apply view_set_fixed; [apply view_members_fixed | done | | done].
  by rewrite Hget.
Qed.

Lemma merged_servers_defined (servers entry : value) :
  is_undefined (merged_servers servers entry) = false.
Proof. by destruct servers. Qed.

Lemma merged_servers_view (servers entry : value) :
  is_undefined entry = false ->
  json_view pf (merged_servers (json_view pf (merged_servers servers entry)) entry)
  = json_view pf (merged_servers servers entry).
Proof.
  intros Hentry.
  assert (Hobj : forall props,
    json_view pf (merged_servers (json_view pf (VObj (assoc_set entryKey entry props))) entry)
    = json_view pf (VObj (assoc_set entryKey entry props))).
  { intros props. rewrite json_view_object. cbn [merged_servers].
    rewrite json_view_object. f_equal. by apply view_set_again. }
  destruct servers; try exact (Hobj []).
  - cbn [merged_servers json_view]. by rewrite map_map, (map_ext _ _ (json_view_idem)).
  - apply Hobj.
Qed.

(** The merge applied to the value that the written text denotes gives a
    document that denotes the same value. *)
Lemma merge_entry_view (doc doc1 entry : value) :
  is_undefined entry = false ->
  merge_entry doc entry = Some doc1 ->
  exists doc2,
    merge_entry (json_view pf doc1) entry = Some doc2 /\
    json_view pf doc2 = json_view pf doc1.
Proof.
  intros Hentry Hmerge. destruct doc; try discriminate.
  - rewrite merge_entry_array in Hmerge. injection Hmerge as <-.
    cbn [json_view]. rewrite merge_entry_array. eexists. split; [reflexivity|].
    cbn [json_view]. by rewrite map_map, (map_ext _ _ (json_view_idem)).
  - rewrite merge_entry_object in Hmerge. injection Hmerge as <-.
    set (servers1 := merged_servers (assoc_get (js "mcpServers") props) entry).
    rewrite json_view_object, merge_entry_object.
    eexists. split; [reflexivity|].
    destruct (assoc_get_view_set (js "mcpServers") servers1 props
                (merged_servers_defined _ _)) as [-> _].
    rewrite json_view_object. f_equal.
    apply view_set_again; try apply merged_servers_defined.
    by apply merged_servers_view.
Qed.

Lemma ensure_summary_exists (dirPath : jsstring) (d : filesystem) :
  is_Some (d !! dirPath) ->
  ensure_summary pf dirPath d = (true, d, [EExistsSync dirPath]).
Proof. intros [nd Hd]. unfold ensure_summary. by rewrite Hd. Qed.

(** After the directory step has completed, the directory exists; when
    it has not, the disk is as before. *)
Lemma ensure_summary_result (dirPath : jsstring) (d : filesystem) :
  match ensure_summary pf dirPath d with
  | (true, d1, _) => is_Some (d1 !! dirPath)
  | (false, d1, _) => d1 = d
  end.
Proof.
  unfold ensure_summary. destruct (d !! dirPath) as [nd|] eqn:Hd.
  - rewrite Hd. eauto.
  - destruct (existsb (is_file d) (ancestors pf (length dirPath) dirPath)); [done|].
    rewrite make_dirs_lookup_in; [eauto | apply ancestors_head].
Qed.

Lemma not_an_object_view (v : value) :
  not_an_object v = false -> not_an_object (json_view pf v) = false.
Proof.
  intros H. apply not_an_object_false in H as [[? ->] | (? & ? & ->)]; reflexivity.
Qed.

Lemma load_summary_document (p : jsstring) (d : filesystem) doc evs :
  load_summary pf p d = (Some doc, evs) -> not_an_object doc = false.
Proof.
  unfold load_summary.
  destruct (d !! p) as [[text|]|]; try by intros [= <- _].
  destruct (JSON_parse pf text) as [v|]; try by intros [= <- _].
  destruct (not_an_object v) eqn:E; [discriminate|]. by intros [= <- _].
Qed.

(** The summary of a second update, from the disk that a first one
    leaves: the disk stays, and the document merged the second time
    denotes what the first one does. *)
Lemma update_summary_twice (p : jsstring) (config : list (jsstring * value))
    (d : filesystem) :
  is_undefined (assoc_get entryKey config) = false ->
  (forall doc, merged_document pf p config d = Some doc ->
               JSON_parse pf (serialize pf [] doc) = Some (json_view pf doc)) ->
  let d' := disk_after_update pf p config d in
  disk_after_update pf p config d' = d' /\
  forall doc1, merged_document pf p config d = Some doc1 ->
    exists doc2, merged_document pf p config d' = Some doc2 /\
                 json_view pf doc2 = json_view pf doc1.
Proof.
  intros Hentry Hrt d'. subst d'. unfold disk_after_update, merged_document in *.
  pose proof (ensure_summary_result (path_dirname pf p) d) as Hres.
  destruct (ensure_summary pf (path_dirname pf p) d) as [[ok d1] ev1] eqn:He.
  destruct ok; cycle 1.
  { (* the directory step failed: nothing has changed *)
    subst d1.
    assert (Hsum : (update_summary pf p config d).1.2 = d).
    { unfold update_summary. by rewrite He. }
    rewrite Hsum, Hsum, He. split; [done | discriminate]. }
  pose proof (ensure_summary_exists _ _ Hres) as He1.
  destruct (load_summary pf p d1) as [[doc|] ev2] eqn:Hl; cycle 1.
  { (* the handler returned at the guard on the parsed file *)
    assert (Hsum : (update_summary pf p config d).1.2 = d1).
    { unfold update_summary. by rewrite He, Hl. }
    rewrite Hsum.
    assert (Hsum1 : (update_summary pf p config d1).1.2 = d1).
    { unfold update_summary. by rewrite He1, Hl. }
    rewrite Hsum1. split; [done | discriminate]. }
  cbn [fst snd mbind option_bind] in *.
  destruct (merge_entry doc (assoc_get entryKey config)) as [doc1|] eqn:Hm; cycle 1.
  { exfalso. apply load_summary_document in Hl.
    destruct (merge_entry_total doc (assoc_get entryKey config) Hl) as [? ?].
    congruence. }
  destruct (merge_entry_defined _ _ _ Hm) as [Hdef Hobj].
  destruct (negb (is_dir d1 p) && is_dir d1 (path_dirname pf p)) eqn:Hw; cycle 1.
  { (* the write failed: the disk is the one after the directory step *)
    assert (Hsum : forall d0 ev,
              ensure_summary pf (path_dirname pf p) d0 = (true, d1, ev) ->
              (update_summary pf p config d0).1.2 = d1).
    { intros d0 ev Hd0. unfold update_summary. rewrite Hd0, Hl. cbn [fst snd].
      rewrite Hm. cbn [mbind option_bind]. unfold JSON_stringify.
      by rewrite Hdef, Hw. }
    rewrite (Hsum d ev1 He), (Hsum d1 _ He1), He1, Hl. cbn [fst snd].
    split; [done|]. intros ? [= <-]. eauto. }
  (* the file was written *)
  set (text := serialize pf [] doc1).
  set (d2 := <[p := File text]> d1).
  assert (Hsum : (update_summary pf p config d).1.2 = d2).
  { unfold update_summary. rewrite He, Hl. cbn [fst snd].
    rewrite Hm. cbn [mbind option_bind]. unfold JSON_stringify.
    by rewrite Hdef, Hw. }
  rewrite Hsum.
  apply andb_true_iff in Hw as [Hnp Hdp]. apply negb_true_iff in Hnp.
  apply is_dir_true in Hdp.
  assert (Hne : p <> path_dirname pf p).
  { intros E. rewrite <- E in Hdp. unfold is_dir in Hnp. by rewrite Hdp in Hnp. }
  assert (Hd2dir : d2 !! path_dirname pf p = Some Dir).
  { unfold d2. by rewrite lookup_insert_ne. }
  assert (Hd2p : d2 !! p = Some (File text)).
  { unfold d2. apply lookup_insert_eq. }
  assert (He2 : ensure_summary pf (path_dirname pf p) d2
                = (true, d2, [EExistsSync (path_dirname pf p)])).
  { apply ensure_summary_exists. eauto. }
  destruct (merge_entry_view doc doc1 _ Hentry Hm) as (doc2 & Hm2 & Hv2).
  destruct (merge_entry_defined _ _ _ Hm2) as [Hdef2 _].
  assert (Hl2 : load_summary pf p d2
                = (Some (json_view pf doc1), [EExistsSync p; EReadFileSync p])).
  { unfold load_summary. rewrite Hd2p. unfold text.
    rewrite (Hrt doc1 eq_refl). by rewrite (not_an_object_view _ Hobj). }
  assert (Htext : serialize pf [] doc2 = text).
  { unfold text. by rewrite <- (serialize_json_view doc2), Hv2, serialize_json_view. }
  split.
  - unfold update_summary. rewrite He2, Hl2. cbn [fst snd]. rewrite Hm2.
    cbn [mbind option_bind]. unfold JSON_stringify. rewrite Hdef2, Htext.
    unfold is_dir. rewrite Hd2p, Hd2dir. cbn [negb andb fst snd].
    unfold d2. apply insert_insert_eq.
  - intros ? [= <-]. exists doc2. rewrite He2, Hl2. cbn [fst snd]. by split.
Qed.

Lemma onClick_updateJson_stops (w : world) :
  JsString.trim (claudeConfigPath (plugin_settings (ui w))) = [] \/
  McpJsonConfig (ui w) = None \/
  McpJsonConfig (ui w) = Some [] ->
  disk (run (onClick_updateJson pf h) w) = disk w /\
  ui (run (onClick_updateJson pf h) w) = ui w.
Proof.
  intros Hcase.
  unfold run, onClick_updateJson, bind, get_ui, new_Notice, emit, return_.
  cbn beta iota. cbn [fst snd].
  destruct (negb (JsString.truthy (claudeConfigPath (plugin_settings (ui w))))
            || JsString.eqb (JsString.trim (claudeConfigPath (plugin_settings (ui w)))) [])
    eqn:Hblank; [done|].
  destruct Hcase as [Htrim | [Hnone | Hempty]].
  - rewrite Htrim, eqb_eq, orb_true_r in Hblank by done. discriminate.
  - by rewrite Hnone.
  - by rewrite Hempty.
Qed.

Lemma onClick_updateJson_passes (w : world) config :
  JsString.trim (claudeConfigPath (plugin_settings (ui w))) <> [] ->
  McpJsonConfig (ui w) = Some config ->
  config <> [] ->
  let p := tilde_target pf h (claudeConfigPath (plugin_settings (ui w))) in
  disk (run (onClick_updateJson pf h) w) = disk_after_update pf p config (disk w) /\
  ui (run (onClick_updateJson pf h) w) = ui w.
Proof.
  intros Htrim Hconfig Hne p.
  rewrite (onClick_updateJson_eq w config Htrim Hconfig Hne), run_update_file.
  by split.
Qed.

(** C6: pressing the button twice leaves the disk that pressing it once
    leaves, and the document merged the second time denotes the same
    JSON value as the one merged the first time, so no key is added,
    repeated or renamed.  The fragment is a value ([undefined] is not),
    and the text the first update writes is read back by [JSON.parse]
    as the value it denotes. *)
Theorem update_twice_same (w : world) :
  let p := tilde_target pf h (claudeConfigPath (plugin_settings (ui w))) in
  (forall config, McpJsonConfig (ui w) = Some config ->
     is_undefined (assoc_get entryKey config) = false) ->
  (forall config doc,
     McpJsonConfig (ui w) = Some config ->
     merged_document pf p config (disk w) = Some doc ->
     JSON_parse pf (serialize pf [] doc) = Some (json_view pf doc)) ->
  let w1 := run (onClick_updateJson pf h) w in
  let w2 := run (onClick_updateJson pf h) w1 in
  disk w2 = disk w1 /\
  forall config doc1,
    McpJsonConfig (ui w) = Some config ->
    merged_document pf p config (disk w) = Some doc1 ->
    exists doc2,
      merged_document pf p config (disk w1) = Some doc2 /\
      json_view pf doc2 = json_view pf doc1.
Proof.
  intros p Hfrag Hrt w1 w2.
  assert (Hstop :
    JsString.trim (claudeConfigPath (plugin_settings (ui w))) = [] \/
    McpJsonConfig (ui w) = None \/ McpJsonConfig (ui w) = Some [] ->
    disk w2 = disk w1 /\ disk w1 = disk w).
  { intros Hcase. destruct (onClick_updateJson_stops w Hcase) as [Hd Hu].
    fold w1 in Hd, Hu. split; [|done].
    apply (onClick_updateJson_stops w1). by rewrite Hu. }
  destruct (decide (JsString.trim (claudeConfigPath (plugin_settings (ui w))) = []))
    as [Htrim|Htrim].
  { destruct Hstop as [H2 H1]; [by left|]. split; [done|].
    intros config doc1 _ Hdoc. rewrite H1. eauto. }
  destruct (McpJsonConfig (ui w)) as [config|] eqn:Hconfig; cycle 1.
  { destruct Hstop as [H2 H1]; [by right; left|]. split; [done | discriminate]. }
  destruct (decide (config = [])) as [->|Hne].
  { destruct Hstop as [H2 H1]; [by right; right|]. split; [done|].
    intros config doc1 _ Hdoc. rewrite H1. eauto. }
  destruct (onClick_updateJson_passes w config Htrim Hconfig Hne) as [Hd1 Hu1].
  fold p in Hd1. fold w1 in Hd1, Hu1.
  assert (Hd2 : disk w2 = disk_after_update pf p config (disk w1)).
  { destruct (onClick_updateJson_passes w1 config) as [Hd2 _]; rewrite ?Hu1; try done.
    rewrite Hu1 in Hd2. exact Hd2. }
  destruct (update_summary_twice p config (disk w) (Hfrag config eq_refl)
              (fun doc => Hrt config doc eq_refl)) as [Hsame Hdoc].
  rewrite Hd2, Hd1. split; [exact Hsame|].
  intros config' doc1 [= <-] Hm. by apply Hdoc.
Qed.

(** * More of the plugin *)

(** ** What the "Update JSON" handler never does *)

Lemma update_summary_not_throw (p : jsstring) (config : list (jsstring * value))
    (d : filesystem) :
  (update_summary pf p config d).1.1 <> Throw.
Proof.
  unfold update_summary.
  destruct (ensure_summary pf (path_dirname pf p) d) as [[[] d1] ev1]; [|done].
  destruct (load_summary pf p d1) as [[doc|] ev2]; [|done].
  destruct (merge_entry doc (assoc_get entryKey config) ≫= JSON_stringify pf);
    [|done].
  by destruct (negb (is_dir d1 p) && is_dir d1 (path_dirname pf p)).
Qed.

(** The handler as a whole: the two guards, or the update of the file
    at the expanded path. *)
Lemma onClick_updateJson_cases (w : world) :
  (exists n, (n = NoticePathNotSet \/ n = NoticeNoConfigData) /\
             onClick_updateJson pf h w = (Return, log [ENotice n] w)) \/
  (exists config,
     McpJsonConfig (ui w) = Some config /\
     JsString.trim (claudeConfigPath (plugin_settings (ui w))) <> [] /\
     onClick_updateJson pf h w =
       update_file pf
         (tilde_target pf h (claudeConfigPath (plugin_settings (ui w)))) config
         (log (tilde_events h (claudeConfigPath (plugin_settings (ui w)))) w)).
Proof.
  assert (Hstop : forall n,
    (negb (JsString.truthy (claudeConfigPath (plugin_settings (ui w))))
     || JsString.eqb (JsString.trim (claudeConfigPath (plugin_settings (ui w)))) []
     = true /\ n = NoticePathNotSet) \/
    (negb (JsString.truthy (claudeConfigPath (plugin_settings (ui w))))
     || JsString.eqb (JsString.trim (claudeConfigPath (plugin_settings (ui w)))) []
     = false /\ n = NoticeNoConfigData /\
     (McpJsonConfig (ui w) = None \/ McpJsonConfig (ui w) = Some [])) ->
    onClick_updateJson pf h w = (Return, log [ENotice n] w)).
  { intros n Hn. unfold onClick_updateJson, bind, get_ui, new_Notice, emit, return_.
    cbn beta iota.
    destruct Hn as [[-> ->] | (-> & -> & [-> | ->])]; reflexivity. }
  destruct (JsString.trim (claudeConfigPath (plugin_settings (ui w)))) as [|c r]
    eqn:Htrim.
  { left. exists NoticePathNotSet. split; [by left|]. apply Hstop. left.
    by rewrite eqb_eq, orb_true_r. }
  assert (Hne : JsString.trim (claudeConfigPath (plugin_settings (ui w))) <> [])
    by (rewrite Htrim; discriminate).
  rewrite <- Htrim in *. clear Htrim c r.
  assert (Hguard :
    negb (JsString.truthy (claudeConfigPath (plugin_settings (ui w))))
    || JsString.eqb (JsString.trim (claudeConfigPath (plugin_settings (ui w)))) []
    = false).
  { rewrite (eqb_ne _ _ Hne), orb_false_r.
    destruct (claudeConfigPath (plugin_settings (ui w))); [|reflexivity].
    exfalso. by apply Hne. }
  destruct (McpJsonConfig (ui w)) as [[|kv config]|] eqn:Hconfig.
  - left. exists NoticeNoConfigData. split; [by right|]. apply Hstop. right. auto.
  - right. exists (kv :: config). split; [done|]. split; [done|].
    unfold onClick_updateJson, bind at 1, get_ui. cbn beta iota.
    rewrite Hguard, Hconfig. cbn [map length Nat.eqb].
    unfold bind. by rewrite expand_tilde_eq.
  - left. exists NoticeNoConfigData. split; [by right|]. apply Hstop. right. auto.
Qed.

(** X1: the handler of the button never ends with an exception: every
    failure of the file system, of the parse or of the merge is caught
    and reported in a notice. *)
Theorem updateJson_never_throws (w : world) :
  (onClick_updateJson pf h w).1 <> Throw.
Proof.
  destruct (onClick_updateJson_cases w) as [(n & _ & ->) | (config & _ & _ & ->)];
    [done|].
  rewrite update_file_eq.
  pose proof (update_summary_not_throw
                (tilde_target pf h (claudeConfigPath (plugin_settings (ui w))))
                config
                (disk (log (tilde_events h (claudeConfigPath (plugin_settings (ui w)))) w)))
    as Hnot.
  by destruct (update_summary _ _ _ _) as [[o d] evs].
Qed.

Lemma new_events_log (w : world) (d : filesystem) (evs : list (event number)) :
  new_events w (set_disk d (log evs w)) = evs.
Proof. unfold new_events. cbn [trace set_disk log]. apply drop_app_length. Qed.

Lemma update_summary_events (p : jsstring) (config : list (jsstring * value))
    (d : filesystem) :
  Forall (update_event pf p) (update_summary pf p config d).2 /\
  (length (filter (fun e => is_write_event e = true)
             (update_summary pf p config d).2) <= 1)%nat.
Proof.
  unfold update_summary, ensure_summary, load_summary, events_failed.
  repeat case_match; simplify_eq; cbn [snd app];
    (split;
     [ repeat match goal with |- Forall _ _ => constructor end; cbn; auto
     | vm_compute; lia ]).
Qed.

(** The run of the handler, as a disk and a list of events. *)
Lemma run_onClick_updateJson (w : world) :
  let p := tilde_target pf h (claudeConfigPath (plugin_settings (ui w))) in
  (exists n, (n = NoticePathNotSet \/ n = NoticeNoConfigData) /\
             run (onClick_updateJson pf h) w = log [ENotice n] w) \/
  (exists config,
     McpJsonConfig (ui w) = Some config /\
     run (onClick_updateJson pf h) w =
       set_disk (disk_after_update pf p config (disk w))
         (log (tilde_events h (claudeConfigPath (plugin_settings (ui w))) ++
               (update_summary pf p config (disk w)).2) w)).
Proof.
  intros p. unfold run.
  destruct (onClick_updateJson_cases w) as [(n & Hn & ->) | (config & Hc & _ & ->)].
  - left. by exists n.
  - right. exists config. split; [done|]. fold p. rewrite update_file_eq.
    cbn [disk log]. unfold disk_after_update.
    destruct (update_summary pf p config (disk w)) as [[o d] evs].
    cbn [fst snd]. unfold set_disk, log. cbn [ui disk trace].
    by rewrite app_assoc.
Qed.

Lemma tilde_events_quiet (filePath p : jsstring) :
  Forall (update_event pf p) (tilde_events h filePath) /\
  filter (fun e : event number => is_write_event e = true)
    (tilde_events h filePath) = [].
Proof.
  unfold tilde_events. destruct (has_tilde filePath); [|by split].
  destruct (os_homedir h) as [[|c home]|]; split; try reflexivity;
    repeat match goal with |- Forall _ _ => constructor end; exact I.
Qed.

(** X2: the handler of the button changes nothing of the tab and saves
    nothing; it asks the file system about the target path and its
    parent directory only, and writes at most once. *)
Theorem updateJson_contained (w : world) :
  let p := tilde_target pf h (claudeConfigPath (plugin_settings (ui w))) in
  let w' := run (onClick_updateJson pf h) w in
  ui w' = ui w /\
  trace w' = trace w ++ new_events w w' /\
  Forall (update_event pf p) (new_events w w') /\
  (length (filter (fun e => is_write_event e = true) (new_events w w')) <= 1)%nat.
Proof.
  intros p w'. subst w'.
  destruct (run_onClick_updateJson w) as [(n & _ & ->) | (config & _ & ->)].
  - change (log [ENotice n] w) with (set_disk (disk w) (log [ENotice n] w)).
    rewrite new_events_log. repeat split; [|vm_compute; lia].
    by repeat constructor.
  - fold p. rewrite new_events_log.
    destruct (update_summary_events p config (disk w)) as [Hall Hone].
    destruct (tilde_events_quiet (claudeConfigPath (plugin_settings (ui w))) p)
      as [Hq Hnone].
    repeat split.
    + apply Forall_app. by split.
    + by rewrite filter_app, Hnone.
Qed.

(** ** The disk around the target *)

Lemma make_dirs_keeps (chain : list jsstring) (d : filesystem) q x :
  existsb (is_file d) chain = false ->
  d !! q = Some x -> make_dirs chain d !! q = Some x.
Proof.
  intros Hnone Hq. destruct (decide (q ∈ chain)) as [Hin|Hnin].
  - rewrite (make_dirs_lookup_in _ _ _ Hin).
    pose proof (existsb_is_file_false _ _ _ Hnone Hin) as Hf.
    unfold is_file in Hf. rewrite Hq in Hf. by destruct x.
  - by rewrite make_dirs_lookup_notin.
Qed.

Lemma ensure_summary_keeps (dirPath : jsstring) (d : filesystem) q x :
  d !! q = Some x -> (ensure_summary pf dirPath d).1.2 !! q = Some x.
Proof.
  intros Hq. unfold ensure_summary. destruct (d !! dirPath); [done|].
  destruct (existsb (is_file d) (ancestors pf (length dirPath) dirPath)) eqn:E;
    [done|]. by apply make_dirs_keeps.
Qed.

(** The disk after [update_file]: the one after the directory step,
    with or without the new file. *)
Lemma disk_after_update_cases (p : jsstring) (config : list (jsstring * value))
    (d : filesystem) :
  let d1 := (ensure_summary pf (path_dirname pf p) d).1.2 in
  disk_after_update pf p config d = d1 \/
  exists doc,
    merged_document pf p config d = Some doc /\
    disk_after_update pf p config d = <[p := File (serialize pf [] doc)]> d1.
Proof.
  unfold disk_after_update, merged_document, update_summary.
  destruct (ensure_summary pf (path_dirname pf p) d) as [[[] d1] ev1];
    cbn [fst snd]; [|by left].
  destruct (load_summary pf p d1) as [[doc|] ev2]; cbn [fst snd]; [|by left].
  cbn [mbind option_bind].
  destruct (merge_entry doc (assoc_get entryKey config)) as [doc1|] eqn:Hm;
    cbn [mbind option_bind]; [|by left].
  destruct (merge_entry_defined _ _ _ Hm) as [Hdef _].
  unfold JSON_stringify. rewrite Hdef.
  destruct (negb (is_dir d1 p) && is_dir d1 (path_dirname pf p)); [|by left].
  right. by exists doc1.
Qed.

(** X3: whatever the handler of the button does, every file and
    directory that is on the disk, other than the target itself, is
    still there afterwards, as it was. *)
Theorem updateJson_keeps_other_entries (w : world) (q : jsstring) (x : node) :
  let p := tilde_target pf h (claudeConfigPath (plugin_settings (ui w))) in
  disk w !! q = Some x ->
  q <> p ->
  disk (run (onClick_updateJson pf h) w) !! q = Some x.
Proof.
  intros p Hq Hne.
  destruct (run_onClick_updateJson w) as [(n & _ & ->) | (config & _ & ->)];
    [done|].
  fold p. cbn [disk set_disk].
  pose proof (ensure_summary_keeps (path_dirname pf p) (disk w) q x Hq) as Hkeep.
  destruct (disk_after_update_cases p config (disk w)) as [-> | (doc & _ & ->)];
    [done|].
  by rewrite lookup_insert_ne.
Qed.

Lemma ensure_summary_new (dirPath : jsstring) (d : filesystem) q x :
  (ensure_summary pf dirPath d).1.2 !! q = Some x ->
  d !! q = Some x \/
  (q ∈ ancestors pf (length dirPath) dirPath /\ x = Dir /\ d !! dirPath = None).
Proof.
  unfold ensure_summary. destruct (d !! dirPath) eqn:Hdir; [by left|].
  destruct (existsb (is_file d) (ancestors pf (length dirPath) dirPath));
    [by left|]. cbn [fst snd].
  destruct (decide (q ∈ ancestors pf (length dirPath) dirPath)) as [Hin|Hnin].
  - rewrite (make_dirs_lookup_in _ _ _ Hin). intros [= <-]. by right.
  - rewrite (make_dirs_lookup_notin _ _ _ Hnin). by left.
Qed.

(** X19: the handler of the button creates nothing but the target file
    and, when the parent directory is missing, that directory and its
    ancestors: every entry of the disk afterwards was there before, or
    is the target, a regular file, or is one of those directories. *)
Theorem updateJson_creates_only_what_it_needs (w : world) (q : jsstring)
    (x : node) :
  let p := tilde_target pf h (claudeConfigPath (plugin_settings (ui w))) in
  let dirPath := path_dirname pf p in
  disk (run (onClick_updateJson pf h) w) !! q = Some x ->
  disk w !! q = Some x \/
  (q = p /\ exists text, x = File text) \/
  (q ∈ ancestors pf (length dirPath) dirPath /\ x = Dir /\
   disk w !! dirPath = None).
Proof.
  intros p dirPath.
  destruct (run_onClick_updateJson w) as [(n & _ & ->) | (config & _ & ->)];
    [by left|].
  fold p. cbn [disk set_disk].
  pose proof (ensure_summary_new dirPath (disk w) q x) as Hnew.
  destruct (disk_after_update_cases p config (disk w)) as [-> | (doc & _ & ->)].
  - intros Hq. destruct (Hnew Hq) as [?|?]; auto.
  - destruct (decide (q = p)) as [->|Hne].
    + rewrite lookup_insert_eq. intros [= <-]. right. left. eauto.
    + rewrite lookup_insert_ne by done.
      intros Hq. destruct (Hnew Hq) as [?|?]; auto.
Qed.

Ltac not_in_events :=
  let Hin := fresh "Hin" in
  intros Hin;
  repeat (apply elem_of_cons in Hin as [Hin|Hin]; [discriminate|]);
  by apply elem_of_nil in Hin.

Ltac in_events :=
  repeat first [ apply list_elem_of_here | apply list_elem_of_further ].

Lemma update_summary_reported (p : jsstring) (config : list (jsstring * value))
    (d : filesystem) :
  let d1 := (ensure_summary pf (path_dirname pf p) d).1.2 in
  (ENotice (NoticeUpdated p) ∈ (update_summary pf p config d).2 /\
   exists doc,
     merged_document pf p config d = Some doc /\
     disk_after_update pf p config d = <[p := File (serialize pf [] doc)]> d1) \/
  ((ENotice (NoticeUpdated p) ∉ (update_summary pf p config d).2) /\
   disk_after_update pf p config d = d1).
Proof.
  unfold disk_after_update, merged_document, update_summary, ensure_summary,
    load_summary, events_failed.
  repeat case_match; simplify_eq; cbn [fst snd mbind option_bind app] in *;
    try (right; split; [not_in_events | reflexivity]).
  all: left; split; [in_events|].
  all: match goal with
       | H : merge_entry ?doc ?e ≫= JSON_stringify pf = Some ?t |- _ =>
           destruct (merge_entry doc e) as [doc1|] eqn:Hm;
           cbn [mbind option_bind] in H; [|discriminate];
           destruct (merge_entry_defined _ _ _ Hm) as [Hdef _];
           unfold JSON_stringify in H; rewrite Hdef in H; simplify_eq;
           by exists doc1
       end.
Qed.

(** X4: the notice of success is shown only when the target holds the
    text of the merged document; when it is not shown, no entry of the
    disk has been changed or removed (directories may have been
    added). *)
Theorem update_reported_only_if_written (w : world) :
  let p := tilde_target pf h (claudeConfigPath (plugin_settings (ui w))) in
  let w' := run (onClick_updateJson pf h) w in
  (ENotice (NoticeUpdated p) ∈ new_events w w' ->
   exists config doc,
     McpJsonConfig (ui w) = Some config /\
     merged_document pf p config (disk w) = Some doc /\
     disk w' !! p = Some (File (serialize pf [] doc))) /\
  (ENotice (NoticeUpdated p) ∉ new_events w w' ->
   forall q x, disk w !! q = Some x -> disk w' !! q = Some x).
Proof.
  intros p w'. subst w'.
  destruct (run_onClick_updateJson w) as [(n & Hn & Hrun) | (config & Hc & Hrun)];
    rewrite Hrun.
  - change (log [ENotice n] w) with (set_disk (disk w) (log [ENotice n] w)).
    rewrite new_events_log. split; [|done].
    intros Hin. apply list_elem_of_singleton in Hin.
    destruct Hn as [-> | ->]; discriminate.
  - fold p. rewrite new_events_log. cbn [disk set_disk].
    assert (Hquiet : ENotice (NoticeUpdated p) ∉
                     tilde_events h (claudeConfigPath (plugin_settings (ui w)))).
    { unfold tilde_events. repeat case_match; not_in_events. }
    destruct (update_summary_reported p config (disk w))
      as [(Hin & doc & Hdoc & ->) | (Hnin & ->)].
    + split.
      * intros _. exists config, doc. split; [done|]. split; [done|].
        apply lookup_insert_eq.
      * intros Hno. exfalso. apply Hno. apply elem_of_app. by right.
    + split.
      * intros Hin. apply elem_of_app in Hin as [?|?]; done.
      * intros _ q x Hq. by apply ensure_summary_keeps.
Qed.

(** ** Failures of the file system *)

(** X5: when the parent directory does not exist and a regular file
    stands where it or one of its ancestors has to be, the creation of
    the directory fails: the handler reports that the configuration
    could not be saved, asks nothing about the target and leaves the
    disk as it is. *)
Theorem directory_creation_fails (w : world) config :
  let filePath := claudeConfigPath (plugin_settings (ui w)) in
  let p := tilde_target pf h filePath in
  let dirPath := path_dirname pf p in
  JsString.trim filePath <> [] ->
  McpJsonConfig (ui w) = Some config ->
  config <> [] ->
  disk w !! dirPath = None ->
  existsb (is_file (disk w)) (ancestors pf (length dirPath) dirPath) = true ->
  run (onClick_updateJson pf h) w =
    log (tilde_events h filePath ++
         [ EExistsSync dirPath; ENotice (NoticeCreatingDirectory dirPath);
           EMkdirSync dirPath;
           EConsoleError; ENotice (NoticeSaveFailed p) ]) w.
Proof.
  intros filePath p dirPath Htrim Hconfig Hne Hdir Hfile.
  rewrite (onClick_updateJson_eq w config Htrim Hconfig Hne).
  fold filePath. fold p. rewrite run_update_file.
  unfold update_summary, ensure_summary, events_failed. cbn [disk log].
  fold dirPath. rewrite Hdir, Hfile. cbn [fst snd].
  unfold set_disk, log. cbn [ui disk trace]. by rewrite <- !app_assoc.
Qed.

(** X6: when the target path is a directory, the read fails and then
    the write fails: the user gets the notice about the unreadable file
    and then the notice that the configuration could not be saved, and
    the disk is left as it is. *)
Theorem target_is_a_directory (w : world) config :
  let filePath := claudeConfigPath (plugin_settings (ui w)) in
  let p := tilde_target pf h filePath in
  JsString.trim filePath <> [] ->
  McpJsonConfig (ui w) = Some config ->
  config <> [] ->
  is_Some (disk w !! path_dirname pf p) ->
  disk w !! p = Some Dir ->
  let text :=
    serialize pf []
      (VObj [ (js "mcpServers",
               VObj [ (entryKey, assoc_get entryKey config) ]) ]) in
  run (onClick_updateJson pf h) w =
    log (tilde_events h filePath ++
         [ EExistsSync (path_dirname pf p); EExistsSync p; EReadFileSync p;
           ENotice NoticeReadError;
           EWriteFileSync p text;
           EConsoleError; ENotice (NoticeSaveFailed p) ]) w.
Proof.
  intros filePath p Htrim Hconfig Hne [nd Hdir] Hp text.
  rewrite (onClick_updateJson_eq w config Htrim Hconfig Hne).
  fold filePath. fold p. rewrite run_update_file.
  unfold update_summary, ensure_summary, load_summary, events_failed.
  cbn [disk log]. rewrite Hdir. cbn [fst snd]. rewrite Hp.
  rewrite merge_entry_empty. cbn [mbind option_bind JSON_stringify is_undefined].
  rewrite (proj2 (is_dir_true _ _) Hp). cbn [negb andb fst snd].
  unfold set_disk, log. cbn [ui disk trace]. by rewrite <- !app_assoc.
Qed.

(** ** The tilde, when the home directory is found *)

(** X7: for a path that begins with [~/] or [~\], when [os.homedir()]
    gives a non-empty string, the handler works, without any notice
    about the tilde, on the path that [path.join] makes of the home
    directory and the rest: the path without its first two units after
    [~/], without its first unit only after [~\]. *)
Theorem resolved_home_expands (w : world) config (c : N) (home : jsstring) :
  let filePath := claudeConfigPath (plugin_settings (ui w)) in
  has_tilde filePath = true ->
  os_homedir h = Some (c :: home) ->
  McpJsonConfig (ui w) = Some config ->
  config <> [] ->
  run (onClick_updateJson pf h) w =
    run (update_file pf
           (path_join pf
              [ c :: home;
                if JsString.startsWith (js "~/") filePath
                then drop 2 filePath else drop 1 filePath ])
           config) w.
Proof.
  intros filePath Htilde Hhome Hconfig Hne.
  rewrite (onClick_updateJson_eq w config (has_tilde_trim _ Htilde) Hconfig Hne).
  fold filePath. unfold tilde_target, tilde_events. rewrite Htilde, Hhome.
  rewrite log_nil. unfold JsString.substring.
  by destruct (JsString.startsWith (js "~/") filePath).
Qed.

(** ** An array under [mcpServers] *)

Lemma view_set_same (k : jsstring) (x : value) props :
  is_undefined x = false ->
  is_undefined (assoc_get k props) = false ->
  json_view pf x = json_view pf (assoc_get k props) ->
  omap (view_member pf) (assoc_set k x props) = omap (view_member pf) props.
Proof.
  intros Hx. induction props as [|[k0 v0] r IH]; cbn [assoc_get assoc_set];
    [discriminate|].
  eqb_cases k0 k; intros Hdef Hview; cbn [omap list_omap view_member].
  - by rewrite Hx, Hdef, Hview.
  - destruct (is_undefined v0); [by apply IH|]. f_equal. by apply IH.
Qed.

(** X8: when the existing document is an object whose [mcpServers] is
    an array, the entry is set on the array as a named property, which
    [JSON.stringify] does not print: the handler reports the update, but
    the text it writes is the text of the document as it was read,
    without the entry. *)
Theorem array_servers_entry_lost (w : world) config text props elems named :
  let filePath := claudeConfigPath (plugin_settings (ui w)) in
  let p := tilde_target pf h filePath in
  JsString.trim filePath <> [] ->
  McpJsonConfig (ui w) = Some config ->
  config <> [] ->
  is_dir (disk w) (path_dirname pf p) = true ->
  disk w !! p = Some (File text) ->
  JSON_parse pf text = Some (VObj props) ->
  assoc_get (js "mcpServers") props = VArr elems named ->
  let written := serialize pf [] (VObj props) in
  run (onClick_updateJson pf h) w =
    set_disk (<[p := File written]> (disk w))
      (log (tilde_events h filePath ++
            [ EExistsSync (path_dirname pf p); EExistsSync p; EReadFileSync p;
              EWriteFileSync p written;
              ENotice (NoticeUpdated p) ]) w).
Proof.
  intros filePath p Htrim Hconfig Hne Hdir Hfile Hparse Harr written.
  assert (Hsame :
    serialize pf []
      (VObj (assoc_set (js "mcpServers")
               (merged_servers (VArr elems named) (assoc_get entryKey config))
               props)) = written).
  { unfold written.
    rewrite <- (serialize_json_view (VObj (assoc_set _ _ _))),
            <- (serialize_json_view (VObj props)).
    rewrite !json_view_object. do 2 f_equal.
    apply view_set_same; rewrite ?Harr; reflexivity. }
  rewrite (onClick_updateJson_eq w config Htrim Hconfig Hne).
  fold filePath. fold p. rewrite run_update_file.
  pose proof Hdir as Hd. apply is_dir_true in Hd.
  unfold update_summary, ensure_summary, load_summary. cbn [disk log].
  rewrite Hd. cbn [fst snd]. rewrite Hfile, Hparse.
  cbn [not_an_object typeof jstype_eqb negb is_null orb fst snd].
  rewrite merge_entry_object, Harr.
  cbn [mbind option_bind JSON_stringify is_undefined]. rewrite Hsame.
  rewrite Hdir. unfold is_dir. rewrite Hfile. cbn [negb andb fst snd].
  unfold set_disk, log. cbn [ui disk trace]. by rewrite <- !app_assoc.
Qed.


(** ** Trimmed strings *)

Lemma trimStart_fixed (s : jsstring) :
  match s with [] => True | c :: _ => JsString.is_white c = false end ->
  JsString.trimStart s = s.
Proof.
  destruct s as [|c r]; [done|]. cbn [JsString.trimStart]. by intros ->.
Qed.

Lemma trimStart_head (s : jsstring) :
  match JsString.trimStart s with
  | [] => True
  | c :: _ => JsString.is_white c = false
  end.
Proof.
  induction s as [|c r IH]; [done|]. cbn [JsString.trimStart].
  destruct (JsString.is_white c) eqn:E; [exact IH | exact E].
Qed.

Lemma trimEnd_head (s : jsstring) :
  match s with [] => True | c :: _ => JsString.is_white c = false end ->
  match JsString.trimEnd s with
  | [] => True
  | c :: _ => JsString.is_white c = false
  end.
Proof.
  destruct s as [|c r]; [done|]. intros Hc. unfold JsString.trimEnd.
  change (rev (c :: r)) with (rev r ++ [c]).
  destruct (trimStart_keeps_last (rev r) c Hc) as [s' ->].
  rewrite rev_app_distr. exact Hc.
Qed.

Lemma trimEnd_idem (s : jsstring) :
  JsString.trimEnd (JsString.trimEnd s) = JsString.trimEnd s.
Proof.
  unfold JsString.trimEnd. rewrite rev_involutive.
  by rewrite (trimStart_fixed _ (trimStart_head _)).
Qed.

(** [trim] leaves a trimmed string as it is. *)
Lemma trim_idem (s : jsstring) :
  JsString.trim (JsString.trim s) = JsString.trim s.
Proof.
  unfold JsString.trim.
  rewrite (trimStart_fixed (JsString.trimEnd (JsString.trimStart s))).
  - apply trimEnd_idem.
  - apply trimEnd_head, trimStart_head.
Qed.

(** ** The settings page as a whole *)

Arguments serialize : simpl never.
Arguments fragment : simpl never.

Ltac split_world w := destruct w as [[? ? [?|] ?] ? ?].

Ltac run_edit :=
  unfold run, perform, display, onChange_uvPath, onChange_historyFolder,
    edit_maxHistoryFiles, onChange_maxHistoryFiles, onInput_claudeConfigPath,
    _buildMcpJsonConfigUI, _updateMcpJsonConfigDisplay, saveSettings,
    new_Notice, emit, bind, get_ui, put_ui, ret, throw, log;
  simpl.

Lemma onClick_updateJson_ui (w : world) :
  ui (run (onClick_updateJson pf h) w) = ui w.
Proof.
  by destruct (run_onClick_updateJson w) as [(n & _ & ->) | (config & _ & ->)].
Qed.

Lemma onClick_updateJson_saves_nothing (w : world) :
  forall s, ESaveData s ∉ new_events w (run (onClick_updateJson pf h) w).
Proof.
  intros s.
  destruct (run_onClick_updateJson w) as [(n & _ & ->) | (config & _ & ->)].
  - change (log [ENotice n] w) with (set_disk (disk w) (log [ENotice n] w)).
    rewrite new_events_log. not_in_events.
  - rewrite new_events_log. intros Hin.
    pose proof (tilde_events_quiet (claudeConfigPath (plugin_settings (ui w)))
                  (tilde_target pf h (claudeConfigPath (plugin_settings (ui w)))))
      as [Hq _].
    pose proof (update_summary_events
                  (tilde_target pf h (claudeConfigPath (plugin_settings (ui w))))
                  config (disk w)) as [Hu _].
    pose proof (proj2 (Forall_app _ _ _) (conj Hq Hu)) as Hall.
    rewrite Forall_forall in Hall. exact (Hall _ Hin).
Qed.

Lemma shows_current_display (w : world) :
  shows_current pf h (run (display pf h) w).
Proof. unfold shows_current. run_edit. by split. Qed.

Lemma shows_current_perform (a : action) (w : world) :
  shows_current pf h w -> shows_current pf h (run (perform pf h a) w).
Proof.
  intros Hw.
  destruct a;
    [ | | | | unfold shows_current, perform; by rewrite onClick_updateJson_ui
      | apply shows_current_display ];
    destruct Hw as [Hc Ht]; split_world w; simpl in Hc, Ht; try discriminate;
    unfold shows_current; run_edit; try (by split).
  destruct (negb (Number_isNaN pf (parseInt10 pf value))
            && Number_ge0 pf (parseInt10 pf value)); simpl; by split.
Qed.

Lemma shows_current_perform_all (acts : list action) (w : world) :
  shows_current pf h w -> shows_current pf h (perform_all pf h acts w).
Proof.
  revert w. induction acts as [|a acts IH]; intros w Hw; [exact Hw|].
  apply IH. by apply shows_current_perform.
Qed.

(** X10: once the page has been displayed, whatever the user does with
    its fields and buttons, the stored configuration and the text of
    the text area are the ones computed from the settings as they are
    (and the credentials of the companion plugin as the host gives
    them). *)
Theorem page_shows_current_settings (acts : list action) (w : world) :
  shows_current pf h (perform_all pf h acts (run (display pf h) w)).
Proof. apply shows_current_perform_all, shows_current_display. Qed.

Lemma settings_valid_perform (a : action) (w : world) :
  valid_limit pf (plugin_settings (ui w)) /\
  normal_folder (plugin_settings (ui w)) ->
  valid_limit pf (plugin_settings (ui (run (perform pf h a) w))) /\
  normal_folder (plugin_settings (ui (run (perform pf h a) w))).
Proof.
  intros Hw.
  destruct a;
    [ | | | | unfold perform; by rewrite onClick_updateJson_ui | ];
    destruct Hw as [Hlimit Hfolder]; split_world w; simpl in Hlimit, Hfolder;
    run_edit; try (split; assumption).
  - split; [exact Hlimit|]. unfold normal_folder. simpl.
    eqb_cases (JsString.trim value) (@nil N); [done|].
    split; [done | apply trim_idem].
  - split; [exact Hlimit|]. unfold normal_folder. simpl.
    eqb_cases (JsString.trim value) (@nil N); [done|].
    split; [done | apply trim_idem].
  - destruct (Number_isNaN pf (parseInt10 pf value)) eqn:Hnan;
      simpl; [split; assumption|].
    destruct (Number_ge0 pf (parseInt10 pf value)) eqn:Hge;
      simpl; [|split; assumption].
    split; [split; assumption | exact Hfolder].
  - destruct (Number_isNaN pf (parseInt10 pf value)) eqn:Hnan;
      simpl; [split; assumption|].
    destruct (Number_ge0 pf (parseInt10 pf value)) eqn:Hge;
      simpl; [|split; assumption].
    split; [split; assumption | exact Hfolder].
Qed.

(** X11: the fields cannot spoil the settings: when the limit passes
    the test of its field and the history folder is [null] or a
    trimmed, non-empty string, they still are so after any sequence of
    edits, clicks and reloads. *)
Theorem settings_stay_valid (acts : list action) (w : world) :
  valid_limit pf (plugin_settings (ui w)) ->
  normal_folder (plugin_settings (ui w)) ->
  valid_limit pf (plugin_settings (ui (perform_all pf h acts w))) /\
  normal_folder (plugin_settings (ui (perform_all pf h acts w))).
Proof.
  intros Hlimit Hfolder. pose proof (conj Hlimit Hfolder) as Hw.
  clear Hlimit Hfolder. revert w Hw.
  induction acts as [|a acts IH]; intros w Hw; [exact Hw|].
  apply IH. by apply settings_valid_perform.
Qed.

(** X12: an input of the "Max History Files" field for which [parseInt]
    gives a number that is not NaN and not negative is accepted: the
    number is stored and saved, the fragment carries its string, and the
    field keeps the text as it was typed. *)
Theorem accepted_limit_stored (w : world) (value : jsstring) :
  Number_isNaN pf (parseInt10 pf value) = false ->
  Number_ge0 pf (parseInt10 pf value) = true ->
  let s' := set_maxHistoryFiles (parseInt10 pf value) (plugin_settings (ui w)) in
  let w' := run (edit_maxHistoryFiles pf h value) w in
  plugin_settings (ui w') = s' /\
  maxHistoryText (ui w') = value /\
  disk w' = disk w /\
  trace w' = trace w ++ [ESaveData s'] /\
  exists command args env,
    McpJsonConfig (ui w') =
      Some [ (entryKey,
              VObj [ (js "command", command); (js "args", args);
                     (js "env", VObj env) ]) ] /\
    assoc_get (js "OBSIDIAN_MAX_HISTORY_FILES") env =
      VStr (Number_toString pf (parseInt10 pf value)).
Proof.
  intros Hnan Hge s' w'. subst s' w'.
  assert (Hfrag : exists command args env,
    Some [ (entryKey,
            fragment pf h
              (set_maxHistoryFiles (parseInt10 pf value) (plugin_settings (ui w)))
              (getLocalRestApiCredentials pf h)) ] =
      Some [ (entryKey,
              VObj [ (js "command", command); (js "args", args);
                     (js "env", VObj env) ]) ] /\
    assoc_get (js "OBSIDIAN_MAX_HISTORY_FILES") env =
      VStr (Number_toString pf (parseInt10 pf value))).
  { unfold fragment. eexists _, _, _. split; reflexivity. }
  split_world w; run_edit; rewrite Hnan, Hge; simpl; repeat split; exact Hfrag.
Qed.

(** X13: an input of the path field that is empty or blank stores the
    empty path and saves it; the button then shows the notice that the
    path is not set and does nothing else. *)
Theorem blank_path_disables_update (w : world) (value : jsstring) :
  JsString.trim value = [] ->
  let s' := set_claudeConfigPath [] (plugin_settings (ui w)) in
  run (onClick_updateJson pf h) (run (onInput_claudeConfigPath value) w) =
    {| ui := set_plugin_settings s' (ui w);
       disk := disk w;
       trace := trace w ++ [ESaveData s'; ENotice NoticePathNotSet] |}.
Proof.
  intros Hblank s'. subst s'.
  unfold run, onInput_claudeConfigPath, saveSettings, onClick_updateJson,
    new_Notice, emit, return_, bind, get_ui, put_ui, log.
  cbn [ui disk trace fst snd plugin_settings set_plugin_settings
       claudeConfigPath set_claudeConfigPath].
  rewrite Hblank. cbn [JsString.truthy negb orb fst snd ui disk trace].
  by rewrite <- app_assoc.
Qed.

(** X14: the fields and the reload button never touch the disk, and
    what they store is saved: after each of them either exactly one
    save has been made, of the settings as they are now, or the
    settings are as they were and nothing has happened but, for a
    rejected limit, its notice. *)
Theorem edits_saved_and_disk_untouched (a : action) (w : world) :
  a <> ClickUpdateJson ->
  let w' := run (perform pf h a) w in
  disk w' = disk w /\
  (new_events w w' = [ESaveData (plugin_settings (ui w'))] \/
   plugin_settings (ui w') = plugin_settings (ui w) /\
   (new_events w w' = [] \/ new_events w w' = [ENotice NoticeInvalidInteger])).
Proof.
  intros Ha w'. subst w'. unfold new_events.
  destruct a; [| | | |done|]; split_world w; run_edit;
    try (split; [done|]; left; apply drop_app_length);
    try (split; [done|]; right; split; [done|]; left; apply drop_all).
  all: destruct (negb (Number_isNaN pf (parseInt10 pf value))
                 && Number_ge0 pf (parseInt10 pf value)); simpl;
    first [ split; [done|]; left; apply drop_app_length
          | split; [done|]; right; split; [done|]; right; apply drop_app_length ].
Qed.

(** ** The credentials of the companion plugin *)

(** X15: the credentials come together or not at all, and there are
    none exactly when the companion plugin is missing or has no
    settings; the URL field shows "Not available" exactly then; the key
    field shows it also for a key that is the empty string (or that
    very text). *)
Theorem credentials_shown :
  let c := getLocalRestApiCredentials pf h in
  (url c = None <-> apiKey c = None) /\
  (url c = None <->
   local_rest_api h = None \/ local_rest_api h = Some None) /\
  (shown_url c = js "Not available" <-> url c = None) /\
  (shown_apiKey c = js "Not available" <->
   apiKey c = None \/ apiKey c = Some [] \/
   apiKey c = Some (js "Not available")).
Proof.
  unfold getLocalRestApiCredentials, shown_url, shown_apiKey.
  destruct (local_rest_api h) as [[s|]|]; cbn [url apiKey].
  - change (js "https://127.0.0.1:") with (104 :: js "ttps://127.0.0.1:").
    change (js "Not available") with (78 :: js "ot available").
    cbn [app JsString.truthy].
    split; [split; discriminate|]. split; [split; [|intros [?|?]]; discriminate|].
    split; [split; discriminate|].
    destruct (settings_apiKey s) as [|a r]; cbn [JsString.truthy].
    + split; auto.
    + split; [intros ->; auto|]. intros [?|[?|?]]; congruence.
  - repeat split; auto.
  - repeat split; auto.
Qed.

(** ** The warning about uv *)

(** X16: the warning under the uv field goes with the fallback of the
    fragment: for the argument it is given at first and the one it is
    given after an edit, it is displayed exactly when the fragment has
    the bare ["uv"] as its command for want of a path, and otherwise
    the command is the path of the field. *)
Theorem uv_warning_iff_fallback (s : MyPluginSettings number) (c : credentials)
    (input : jsstring) :
  uvPath_or_empty (set_uvPath (Some (JsString.trim input)) s) =
    JsString.trim input /\
  (_updateUvPathWarningDisplay (uvPath_or_empty s) = true <->
   uvPath s = None \/ uvPath s = Some []) /\
  get_prop (fragment pf h s c) (js "command") =
    Some (VStr (if _updateUvPathWarningDisplay (uvPath_or_empty s)
                then js "uv" else uvPath_or_empty s)).
Proof.
  assert (Hcommand : forall command args env : value,
    get_prop (VObj [ (js "command", command); (js "args", args);
                     (js "env", env) ]) (js "command") = Some command).
  { intros. cbn [get_prop assoc_get]. by rewrite eqb_eq. }
  unfold fragment. rewrite Hcommand.
  unfold uvPath_or_empty, _updateUvPathWarningDisplay. cbn [uvPath set_uvPath].
  split; [by destruct (JsString.trim input)|].
  destruct (uvPath s) as [[|a r]|]; cbn [JsString.truthy].
  - rewrite eqb_eq by reflexivity. split; [split; auto | reflexivity].
  - rewrite eqb_ne by discriminate.
    split; [split; [discriminate | intros [?|?]; discriminate] | reflexivity].
  - rewrite eqb_eq by reflexivity. split; [split; auto | reflexivity].
Qed.

(** ** The entry that is written *)

Lemma merge_entry_has_entry (doc0 entry doc : value) :
  merge_entry doc0 entry = Some doc ->
  exists servers,
    get_prop doc (js "mcpServers") = Some servers /\
    get_prop servers entryKey = Some entry.
Proof.
  assert (Hservers : forall servers,
    get_prop (merged_servers servers entry) entryKey = Some entry).
  { intros servers. unfold merged_servers.
    destruct servers; cbn [get_prop assoc_get];
      rewrite ?assoc_get_set_eq, ?eqb_eq by reflexivity; reflexivity. }
  destruct doc0; try discriminate.
  - rewrite merge_entry_array. intros [= <-]. cbn [get_prop].
    rewrite assoc_get_set_eq. eauto.
  - rewrite merge_entry_object. intros [= <-]. cbn [get_prop].
    rewrite assoc_get_set_eq. eauto.
Qed.

Lemma merged_document_has_entry (p : jsstring) (config : list (jsstring * value))
    (d : filesystem) (doc : value) :
  merged_document pf p config d = Some doc ->
  exists servers,
    get_prop doc (js "mcpServers") = Some servers /\
    get_prop servers entryKey = Some (assoc_get entryKey config).
Proof.
  unfold merged_document.
  destruct (ensure_summary pf (path_dirname pf p) d) as [[[] d1] ev1];
    [|discriminate].
  destruct (load_summary pf p d1).1 as [doc0|]; cbn [mbind option_bind];
    [|discriminate].
  apply merge_entry_has_entry.
Qed.

(** X17: the entry that goes to the file is never stale: once the page
    has been displayed, after any sequence of edits, clicks and reloads,
    when the button reports the update, the target holds the text of a
    document that has, under [mcpServers] and the entry key, the
    fragment of the settings as they are then.  (It is the text that
    [JSON.stringify] prints of that document: where the document or its
    [mcpServers] is an array, the entry is not in the text.) *)
Theorem written_entry_is_current (acts : list action) (w : world) :
  let w0 := perform_all pf h acts (run (display pf h) w) in
  let p := tilde_target pf h (claudeConfigPath (plugin_settings (ui w0))) in
  let w' := run (onClick_updateJson pf h) w0 in
  ENotice (NoticeUpdated p) ∈ new_events w0 w' ->
  exists doc servers,
    disk w' !! p = Some (File (serialize pf [] doc)) /\
    get_prop doc (js "mcpServers") = Some servers /\
    get_prop servers entryKey =
      Some (fragment pf h (plugin_settings (ui w0))
              (getLocalRestApiCredentials pf h)).
Proof.
  intros w0 p w'. subst w'.
  destruct (shows_current_perform_all acts _ (shows_current_display w))
    as [Hshown _]. fold w0 in Hshown.
  destruct (run_onClick_updateJson w0) as [(n & Hn & Hrun) | (config & Hc & Hrun)];
    rewrite Hrun.
  - change (log [ENotice n] w0) with (set_disk (disk w0) (log [ENotice n] w0)).
    rewrite new_events_log. intros Hin. apply list_elem_of_singleton in Hin.
    destruct Hn as [-> | ->]; discriminate.
  - fold p. rewrite new_events_log. cbn [disk set_disk]. intros Hin.
    assert (Hquiet : ENotice (NoticeUpdated p) ∉
                     tilde_events h (claudeConfigPath (plugin_settings (ui w0)))).
    { unfold tilde_events. repeat case_match; not_in_events. }
    apply elem_of_app in Hin as [Hin|Hin]; [done|].
    destruct (update_summary_reported p config (disk w0))
      as [(_ & doc & Hdoc & ->) | (Hnin & _)]; [|done].
    destruct (merged_document_has_entry _ _ _ _ Hdoc) as (servers & Hs & He).
    exists doc, servers. split; [apply lookup_insert_eq|]. split; [exact Hs|].
    rewrite He. rewrite Hshown in Hc. injection Hc as <-.
    cbn [assoc_get]. by rewrite eqb_eq.
Qed.

(** ** The first run *)

(** X18: with no saved data the path is the default of the platform,
    and the button, pressed on the page as it is first displayed, works
    on it as follows.  On macOS the tilde of the default is expanded
    with the home directory (when that is not found, the handler warns
    and goes on with the path as it is written).  On Windows the
    handler goes on with the default as it is written: [%APPDATA%] is
    not expanded.  Elsewhere the default is the empty path and the
    handler only shows the notice that the path is not set. *)
Theorem first_run_update (hundred : number) (w : world) :
  let w1 := run (display pf h) (run (loadSettings h hundred None) w) in
  let config :=
    [ (entryKey,
       fragment pf h (DEFAULT_SETTINGS h hundred)
         (getLocalRestApiCredentials pf h)) ] in
  run (onClick_updateJson pf h) w1 =
    if isMacOS h then
      match os_homedir h with
      | Some (c :: home) =>
          run (update_file pf
                 (path_join pf
                    [ c :: home;
                      js "Library/Application Support/Claude/claude_desktop_config.json" ])
                 config) w1
      | _ =>
          run (update_file pf DefaultClaudeConfigPaths_macOS config)
              (log (tilde_events h DefaultClaudeConfigPaths_macOS) w1)
      end
    else if isWin h then
      run (update_file pf DefaultClaudeConfigPaths_windows config) w1
    else log [ENotice NoticePathNotSet] w1.
Proof.
  intros w1 config.
  assert (Hs : plugin_settings (ui w1) = DEFAULT_SETTINGS h hundred)
    by (subst w1; split_world w; reflexivity).
  assert (Hc : McpJsonConfig (ui w1) = Some config).
  { destruct (shows_current_display (run (loadSettings h hundred None) w))
      as [Hc _]. fold w1 in Hc. by rewrite Hc, Hs. }
  assert (Hne : config <> []) by discriminate.
  assert (Hpath : claudeConfigPath (plugin_settings (ui w1)) =
                  getDefaultClaudeConfigPath h) by by rewrite Hs.
  unfold getDefaultClaudeConfigPath in Hpath.
  destruct (isMacOS h); [|destruct (isWin h)].
  - assert (Htilde : has_tilde DefaultClaudeConfigPaths_macOS = true)
      by (vm_compute; reflexivity).
    rewrite (onClick_updateJson_eq w1 config); [|rewrite Hpath..|done|done].
    + rewrite Hpath. unfold tilde_target, tilde_events. rewrite Htilde.
      destruct (os_homedir h) as [[|c home]|]; [reflexivity| |reflexivity].
      by rewrite log_nil.
    + by apply has_tilde_trim.
  - assert (Htilde : has_tilde DefaultClaudeConfigPaths_windows = false)
      by (vm_compute; reflexivity).
    rewrite (onClick_updateJson_eq w1 config); [|rewrite Hpath..|done|done].
    + rewrite Hpath. unfold tilde_target, tilde_events. rewrite Htilde.
      by rewrite log_nil.
    + vm_compute. discriminate.
  - unfold run, onClick_updateJson, bind, get_ui, new_Notice, emit, return_.
    cbn beta iota. rewrite Hpath. reflexivity.
Qed.

End Properties.

(** * The handlers on the reference platform *)

Import Reference Examples.

(** ** The reference platform on some inputs *)

Example dirname_file :
  dirname (js "/Users/u/Claude/config.json") = js "/Users/u/Claude".
Proof. vm_compute. reflexivity. Qed.

Example dirname_relative : dirname (js "config.json") = js ".".
Proof. vm_compute. reflexivity. Qed.

Example dirname_root : dirname (js "/") = js "/".
Proof. vm_compute. reflexivity. Qed.

Example dirname_tilde : dirname (js "~/config.json") = js "~".
Proof. vm_compute. reflexivity. Qed.

Example path_join_home :
  path_join [js "/Users/u"; js "Library/Application Support/Claude/c.json"]
  = js "/Users/u/Library/Application Support/Claude/c.json".
Proof. vm_compute. reflexivity. Qed.

Example path_join_dots :
  path_join [js "/Users/u/"; js "../v/./c.json"] = js "/Users/v/c.json".
Proof. vm_compute. reflexivity. Qed.

Example parseInt10_negative : parseInt10 (js "-1") = Int (-1).
Proof. vm_compute. reflexivity. Qed.

Example parseInt10_letters : parseInt10 (js "abc") = NaN.
Proof. vm_compute. reflexivity. Qed.

Example parseInt10_prefix : parseInt10 (js "  42px") = Int 42.
Proof. vm_compute. reflexivity. Qed.

Example parseInt10_zeros : parseInt10 (js "007") = Int 7.
Proof. vm_compute. reflexivity. Qed.

Example Number_toString_negative : Number_toString (Int (-120)) = js "-120".
Proof. vm_compute. reflexivity. Qed.

Example JSON_parse_array :
  JSON_parse (js "[1, 2,3 ]")
  = Some (VArr [VNum (Int 1); VNum (Int 2); VNum (Int 3)] []).
Proof. vm_compute. reflexivity. Qed.

Example JSON_parse_object :
  JSON_parse preservation_text
  = Some (VObj [ (js "unrelated", VNum (Int 1));
                 (js "mcpServers",
                  VObj [ (js "other", VObj [ (js "x", VNum (Int 1)) ]) ]) ]).
Proof. vm_compute. reflexivity. Qed.

Example JSON_parse_malformed : JSON_parse (js "not json{") = None.
Proof. vm_compute. reflexivity. Qed.

Example JSON_parse_trailing_comma : JSON_parse (js "[1,]") = None.
Proof. vm_compute. reflexivity. Qed.

(** The same words between double quotes are a JSON text: a string. *)
Example JSON_parse_string :
  JSON_parse (quoted (js "'not json{'")) = Some (VStr (js "not json{")).
Proof. vm_compute. reflexivity. Qed.

Example JSON_stringify_nested :
  JSON_stringify platform
    (VObj [ (js "a", VArr [] []); (js "b", VObj []);
            (js "c", VArr [VBool true; VNull; VUndefined] [ (js "k", VNull) ]);
            (js "d", VUndefined) ])
  = Some (quoted (js "{
  'a': [],
  'b': {},
  'c': [
    true,
    null,
    null
  ]
}")).
Proof. vm_compute. reflexivity. Qed.

(** ** The handlers on example states *)

(** C1 at the file [[1,2,3]]: the content parses to an array, which the
    test [typeof fileConfig !== 'object' || fileConfig === null] of the
    handler lets through.  The handler does not stop: it writes the
    file again, as the pretty-printed array, and reports the update. *)
Theorem array_file_is_overwritten :
  let w := displayed host_mac config_path (disk_with (js "[1,2,3]")) in
  let w' := run (onClick_updateJson platform host_mac) w in
  JSON_parse (js "[1,2,3]")
    = Some (VArr [VNum (Int 1); VNum (Int 2); VNum (Int 3)] []) /\
  disk w !! config_path = Some (File (js "[1,2,3]")) /\
  disk w' !! config_path = Some (File (js "[
  1,
  2,
  3
]")) /\
  notices_of (trace w') = [NoticeUpdated config_path] /\
  filter (fun e => is_write_event e = true) (trace w')
    = [EWriteFileSync config_path (js "[
  1,
  2,
  3
]")].
Proof. vm_compute. repeat split; reflexivity. Qed.

(** A file holding a JSON string is rejected by the guard and left as it
    is. *)
Example string_file_is_kept :
  let text := quoted (js "'not json{'") in
  let w := displayed host_mac config_path (disk_with text) in
  let w' := run (onClick_updateJson platform host_mac) w in
  disk w' = disk w /\
  notices_of (trace w') = [NoticeNotValidJson config_path] /\
  existsb is_write_event (trace w') = false.
Proof. vm_compute. repeat split; reflexivity. Qed.

(** C2 fails as stated: on a host where [os.homedir()] gives the empty
    string, with the default macOS path [~/Library/...] and an empty
    disk, the handler shows the notice about the tilde and then creates
    the directory [~/Library/Application Support/Claude], literally, and
    writes the file in it. *)
Lemma unresolved_home_touches_disk :
  let path := DefaultClaudeConfigPaths_macOS in
  let w := displayed host_no_home path ∅ in
  let w' := run (onClick_updateJson platform host_no_home) w in
  has_tilde path = true /\
  os_homedir host_no_home = Some [] /\
  disk w = ∅ /\
  is_dir (disk w') (js "~/Library/Application Support/Claude") = true /\
  is_file (disk w') path = true /\
  notices_of (trace w')
    = [ NoticeNoHomeDirectory;
        NoticeCreatingDirectory (js "~/Library/Application Support/Claude");
        NoticeUpdated path ] /\
  existsb is_fs_event (trace w') = true.
Proof. vm_compute. repeat split; reflexivity. Qed.

(** The fragment of the example states. *)
Lemma displayed_config (hst : host number) (path : jsstring) (d : filesystem) :
  McpJsonConfig (ui (displayed hst path d)) =
    Some [ (entryKey,
            fragment platform hst (settings_with path)
              (getLocalRestApiCredentials platform hst)) ].
Proof. reflexivity. Qed.

Lemma unresolved_home_continues_witness :
  let path := DefaultClaudeConfigPaths_macOS in
  let w := displayed host_no_home path ∅ in
  let config :=
    [ (entryKey,
       fragment platform host_no_home (settings_with path)
         (getLocalRestApiCredentials platform host_no_home)) ] in
  has_tilde path = true /\
  os_homedir host_no_home = Some [] /\
  exists evs,
    (evs = [EConsoleWarn; ENotice NoticeNoHomeDirectory] \/
     evs = [EConsoleError; ENotice NoticeTildeExpansionError]) /\
    run (onClick_updateJson platform host_no_home) w =
      run (update_file platform path config) (log evs w).
Proof.
  intros path w config.
  assert (Htilde : has_tilde path = true) by (vm_compute; reflexivity).
  split; [exact Htilde|]. split; [reflexivity|].
  apply (unresolved_home_continues platform host_no_home w config).
  - exact Htilde.
  - left. reflexivity.
  - reflexivity.
  - discriminate.
Defined.

(** The document of the preservation example. *)
Lemma merge_preserves_other_members_witness :
  let text := preservation_text in
  let w := displayed host_mac config_path (disk_with text) in
  let w' := run (onClick_updateJson platform host_mac) w in
  exists props',
    disk w' !! config_path = Some (File (serialize platform [] (VObj props'))) /\
    assoc_get (js "unrelated") props' = VNum (Int 1) /\
    exists servers',
      assoc_get (js "mcpServers") props' = VObj servers' /\
      assoc_get (js "other") servers' = VObj [ (js "x", VNum (Int 1)) ] /\
      assoc_get entryKey servers' =
        fragment platform host_mac (settings_with config_path)
          (getLocalRestApiCredentials platform host_mac).
Proof.
  intros text w w'.
  destruct (merge_preserves_other_members platform host_mac w
              [ (entryKey,
                 fragment platform host_mac (settings_with config_path)
                   (getLocalRestApiCredentials platform host_mac)) ]
              text
              [ (js "unrelated", VNum (Int 1));
                (js "mcpServers",
                 VObj [ (js "other", VObj [ (js "x", VNum (Int 1)) ]) ]) ])
    as (props' & Hrun & Htop & _ & _ & Hservers).
  - vm_compute. discriminate.
  - reflexivity.
  - discriminate.
  - vm_compute. reflexivity.
  - vm_compute. reflexivity.
  - vm_compute. reflexivity.
  - exists props'. split; [|split].
    + subst w'. rewrite Hrun. apply lookup_insert_eq.
    + rewrite Htop; [reflexivity | vm_compute; discriminate].
    + destruct Hservers as (servers' & Hs & Hother & _ & _ & Hentry).
      exists servers'. split; [exact Hs|]. split; [|exact Hentry].
      rewrite Hother; [reflexivity | vm_compute; discriminate].
Defined.

Lemma malformed_file_replaced_witness :
  let text := js "not json{" in
  let w := displayed host_mac config_path (disk_with text) in
  let written :=
    serialize platform []
      (VObj [ (js "mcpServers",
               VObj [ (entryKey,
                       fragment platform host_mac (settings_with config_path)
                         (getLocalRestApiCredentials platform host_mac)) ]) ]) in
  JSON_parse text = None /\
  run (onClick_updateJson platform host_mac) w =
    set_disk (<[config_path := File written]> (disk w))
      (log [ EExistsSync config_dir; EExistsSync config_path;
             EReadFileSync config_path;
             ENotice NoticeReadError;
             EWriteFileSync config_path written;
             ENotice (NoticeUpdated config_path) ] w).
Proof.
  intros text w written.
  assert (Hparse : JSON_parse text = None) by (vm_compute; reflexivity).
  split; [exact Hparse|].
  apply (malformed_file_replaced platform host_mac w
           [ (entryKey,
              fragment platform host_mac (settings_with config_path)
                (getLocalRestApiCredentials platform host_mac)) ]
           text).
  - vm_compute. discriminate.
  - reflexivity.
  - discriminate.
  - vm_compute. reflexivity.
  - vm_compute. reflexivity.
  - exact Hparse.
Defined.

Lemma missing_file_created_witness :
  let path := DefaultClaudeConfigPaths_macOS in
  let p := js "/Users/u/Library/Application Support/Claude/claude_desktop_config.json" in
  let dirPath := js "/Users/u/Library/Application Support/Claude" in
  let w := displayed host_mac path ∅ in
  let w' := run (onClick_updateJson platform host_mac) w in
  let written :=
    serialize platform []
      (VObj [ (js "mcpServers",
               VObj [ (entryKey,
                       fragment platform host_mac (settings_with path)
                         (getLocalRestApiCredentials platform host_mac)) ]) ]) in
  disk w !! p = None /\
  disk w' !! p = Some (File written) /\
  disk w' !! dirPath = Some Dir /\
  disk w' !! js "/Users/u/Library" = Some Dir /\
  notices_of (trace w') = [NoticeCreatingDirectory dirPath; NoticeUpdated p].
Proof.
  intros path p dirPath w w' written.
  destruct (missing_file_created platform host_mac w
              [ (entryKey,
                 fragment platform host_mac (settings_with path)
                   (getLocalRestApiCredentials platform host_mac)) ])
    as (Hfile & Hdir & Hchain & _ & Htrace).
  - vm_compute. discriminate.
  - reflexivity.
  - discriminate.
  - vm_compute. reflexivity.
  - vm_compute. reflexivity.
  - apply (bool_decide_eq_false_1 _). vm_compute. reflexivity.
  - split; [vm_compute; reflexivity|].
    split; [exact Hfile|]. split; [exact Hdir|]. split.
    + apply Hchain; [vm_compute; reflexivity|].
      apply (bool_decide_eq_true_1 _). vm_compute. reflexivity.
    + subst w'. rewrite Htrace. vm_compute. reflexivity.
Defined.

Lemma update_twice_same_witness :
  let text := preservation_text in
  let w := displayed host_mac config_path (disk_with text) in
  let w1 := run (onClick_updateJson platform host_mac) w in
  let w2 := run (onClick_updateJson platform host_mac) w1 in
  disk w2 = disk w1 /\
  forall config doc1,
    McpJsonConfig (ui w) = Some config ->
    merged_document platform config_path config (disk w) = Some doc1 ->
    exists doc2,
      merged_document platform config_path config (disk w1) = Some doc2 /\
      json_view platform doc2 = json_view platform doc1.
Proof.
  intros text w w1 w2.
  apply (update_twice_same platform host_mac w).
  - intros config Hc. unfold w in Hc. rewrite displayed_config in Hc.
    injection Hc as <-. reflexivity.
  - intros config doc Hc Hm. unfold w in Hc. rewrite displayed_config in Hc.
    injection Hc as <-.
    vm_compute in Hm. injection Hm as <-. vm_compute. reflexivity.
Defined.

(** C8 fails as stated for the displayed value: the input ["007"] is
    accepted, the limit becomes 7 and the field goes on showing [007];
    the input ["abc"] is then rejected, and the field shows [7], not the
    value it showed before. *)
Lemma rejected_input_resets_display :
  let w := displayed host_mac config_path ∅ in
  let w1 := run (edit_maxHistoryFiles platform host_mac (js "007")) w in
  let w2 := run (edit_maxHistoryFiles platform host_mac (js "abc")) w1 in
  maxHistoryFiles (plugin_settings (ui w1)) = Int 7 /\
  maxHistoryText (ui w1) = js "007" /\
  Number_isNaN (parseInt10 (js "abc")) = true /\
  maxHistoryText (ui w2) = js "7" /\
  maxHistoryText (ui w2) <> maxHistoryText (ui w1).
Proof. vm_compute. repeat split; try reflexivity. discriminate. Qed.

Lemma invalid_maxHistoryFiles_rejected_witness :
  let w := displayed host_mac config_path ∅ in
  let rejected (value : jsstring) :=
    let w' := run (edit_maxHistoryFiles platform host_mac value) w in
    plugin_settings (ui w') = plugin_settings (ui w) /\
    McpJsonConfig (ui w') = McpJsonConfig (ui w) /\
    configTextArea (ui w') = configTextArea (ui w) /\
    maxHistoryText (ui w') = js "100" /\
    maxHistoryText (ui w') = maxHistoryText (ui w) /\
    disk w' = disk w /\
    trace w' = trace w ++ [ENotice NoticeInvalidInteger] in
  parseInt10 (js "-1") = Int (-1) /\
  parseInt10 (js "abc") = NaN /\
  rejected (js "-1") /\
  rejected (js "abc").
Proof.
  intros w rejected.
  split; [vm_compute; reflexivity|]. split; [vm_compute; reflexivity|]. split.
  - destruct (invalid_maxHistoryFiles_rejected platform host_mac w (js "-1"))
      as (Hs & Hc & Ht & Hshown & Hprior & Hd & Htr).
    { right. vm_compute. reflexivity. }
    unfold rejected. repeat split; try assumption; apply Hprior; reflexivity.
  - destruct (invalid_maxHistoryFiles_rejected platform host_mac w (js "abc"))
      as (Hs & Hc & Ht & Hshown & Hprior & Hd & Htr).
    { left. vm_compute. reflexivity. }
    unfold rejected. repeat split; try assumption; apply Hprior; reflexivity.
Defined.

Lemma synthesis_deterministic_witness :
  let c := getLocalRestApiCredentials platform host_mac in
  let w1 := displayed host_mac config_path ∅ in
  let w2 := run (onClick_updateJson platform host_mac)
              (displayed host_mac config_path (disk_with (js "[1,2,3]"))) in
  w1 <> w2 /\
  McpJsonConfig (ui (run (_updateMcpJsonConfigDisplay platform host_mac c) w1)) =
  McpJsonConfig (ui (run (_updateMcpJsonConfigDisplay platform host_mac c) w2)) /\
  forall t1 t2,
    configTextArea (ui (run (_updateMcpJsonConfigDisplay platform host_mac c) w1))
      = Some t1 ->
    configTextArea (ui (run (_updateMcpJsonConfigDisplay platform host_mac c) w2))
      = Some t2 ->
    t1 = t2.
Proof.
  intros c w1 w2. split.
  - intros E. apply (f_equal (fun x => trace x)) in E. vm_compute in E. discriminate.
  - apply (synthesis_deterministic platform host_mac w1 w2 c c).
    + vm_compute. reflexivity.
    + reflexivity.
Defined.

Lemma update_guards_witness :
  let w := displayed host_mac (js "   ") ∅ in
  exists n,
    (n = NoticePathNotSet \/ n = NoticeNoConfigData) /\
    run (onClick_updateJson platform host_mac) w = log [ENotice n] w.
Proof.
  intros w. apply (update_guards platform host_mac w).
  left. vm_compute. reflexivity.
Defined.

(** ** The further properties on the example states *)

Lemma updateJson_keeps_other_entries_witness :
  let w := displayed host_mac config_path (disk_with preservation_text) in
  disk w !! config_dir = Some Dir /\
  disk (run (onClick_updateJson platform host_mac) w) !! config_dir = Some Dir.
Proof.
  intros w.
  assert (Hq : disk w !! config_dir = Some Dir) by (vm_compute; reflexivity).
  split; [exact Hq|].
  apply (updateJson_keeps_other_entries platform host_mac w config_dir Dir Hq).
  vm_compute. discriminate.
Defined.

Lemma update_reported_only_if_written_witness :
  let w := displayed host_mac config_path (disk_with preservation_text) in
  let w' := run (onClick_updateJson platform host_mac) w in
  ENotice (NoticeUpdated config_path) ∈ new_events w w' /\
  exists config doc,
    McpJsonConfig (ui w) = Some config /\
    merged_document platform config_path config (disk w) = Some doc /\
    disk w' !! config_path = Some (File (serialize platform [] doc)).
Proof.
  intros w w'.
  assert (Hin : ENotice (NoticeUpdated config_path) ∈ new_events w w').
  { apply (list_elem_of_lookup_2 _ 4). vm_compute. reflexivity. }
  split; [exact Hin|].
  exact (proj1 (update_reported_only_if_written platform host_mac w) Hin).
Defined.

Lemma directory_creation_fails_witness :
  let w := displayed host_mac config_path disk_blocked in
  disk w !! config_dir = None /\
  is_file (disk w) (js "/Users/u") = true /\
  run (onClick_updateJson platform host_mac) w =
    log [ EExistsSync config_dir; ENotice (NoticeCreatingDirectory config_dir);
          EMkdirSync config_dir;
          EConsoleError; ENotice (NoticeSaveFailed config_path) ] w.
Proof.
  intros w.
  split; [vm_compute; reflexivity|]. split; [vm_compute; reflexivity|].
  apply (directory_creation_fails platform host_mac w
           (example_config host_mac config_path)).
  - vm_compute. discriminate.
  - reflexivity.
  - discriminate.
  - vm_compute. reflexivity.
  - vm_compute. reflexivity.
Defined.

Lemma target_is_a_directory_witness :
  let w := displayed host_mac config_path disk_dir_at_target in
  let text :=
    serialize platform []
      (VObj [ (js "mcpServers",
               VObj [ (entryKey,
                       assoc_get entryKey (example_config host_mac config_path)) ]) ]) in
  disk w !! config_path = Some Dir /\
  run (onClick_updateJson platform host_mac) w =
    log [ EExistsSync config_dir; EExistsSync config_path;
          EReadFileSync config_path; ENotice NoticeReadError;
          EWriteFileSync config_path text;
          EConsoleError; ENotice (NoticeSaveFailed config_path) ] w.
Proof.
  intros w text.
  assert (Hp : disk w !! config_path = Some Dir) by (vm_compute; reflexivity).
  split; [exact Hp|].
  apply (target_is_a_directory platform host_mac w
           (example_config host_mac config_path)).
  - vm_compute. discriminate.
  - reflexivity.
  - discriminate.
  - exists Dir. vm_compute. reflexivity.
  - exact Hp.
Defined.

Lemma resolved_home_expands_witness :
  let path := DefaultClaudeConfigPaths_macOS in
  let w := displayed host_mac path ∅ in
  has_tilde path = true /\
  run (onClick_updateJson platform host_mac) w =
    run (update_file platform
           (js "/Users/u/Library/Application Support/Claude/claude_desktop_config.json")
           (example_config host_mac path)) w.
Proof.
  intros path w.
  assert (Htilde : has_tilde path = true) by (vm_compute; reflexivity).
  split; [exact Htilde|].
  apply (resolved_home_expands platform host_mac w
           (example_config host_mac path) 47 (js "Users/u")).
  - exact Htilde.
  - reflexivity.
  - reflexivity.
  - discriminate.
Defined.

Lemma array_servers_entry_lost_witness :
  let w := displayed host_mac config_path (disk_with array_servers_text) in
  let w' := run (onClick_updateJson platform host_mac) w in
  let written :=
    serialize platform []
      (VObj [ (js "mcpServers", VArr [ VNum (Int 1) ] []) ]) in
  disk w' !! config_path = Some (File written) /\
  notices_of (trace w') = [ NoticeUpdated config_path ] /\
  JSON_parse written =
    Some (VObj [ (js "mcpServers", VArr [ VNum (Int 1) ] []) ]).
Proof.
  intros w w' written.
  pose proof (array_servers_entry_lost platform host_mac w
                (example_config host_mac config_path) array_servers_text
                [ (js "mcpServers", VArr [ VNum (Int 1) ] []) ]
                [ VNum (Int 1) ] []) as Hrun.
  cbv zeta in Hrun. fold w' in Hrun. rewrite Hrun.
  - split; [apply lookup_insert_eq|]. split; vm_compute; reflexivity.
  - vm_compute. discriminate.
  - reflexivity.
  - discriminate.
  - vm_compute. reflexivity.
  - vm_compute. reflexivity.
  - vm_compute. reflexivity.
  - vm_compute. reflexivity.
Defined.


Lemma settings_stay_valid_witness :
  let w := displayed host_mac config_path ∅ in
  let w' := perform_all platform host_mac example_session w in
  historyFolder (plugin_settings (ui w')) = Some (js "mcp-history") /\
  maxHistoryFiles (plugin_settings (ui w')) = Int 7 /\
  valid_limit platform (plugin_settings (ui w')) /\
  normal_folder (plugin_settings (ui w')).
Proof.
  intros w w'.
  split; [vm_compute; reflexivity|]. split; [vm_compute; reflexivity|].
  apply (settings_stay_valid platform host_mac example_session w).
  - split; reflexivity.
  - exact I.
Defined.

Lemma accepted_limit_stored_witness :
  let w := displayed host_mac config_path ∅ in
  let w' := run (edit_maxHistoryFiles platform host_mac (js "42px")) w in
  parseInt10 (js "42px") = Int 42 /\
  plugin_settings (ui w') =
    set_maxHistoryFiles (Int 42) (settings_with config_path) /\
  maxHistoryText (ui w') = js "42px".
Proof.
  intros w w'.
  split; [vm_compute; reflexivity|].
  destruct (accepted_limit_stored platform host_mac w (js "42px"))
    as (Hs & Ht & _).
  - vm_compute. reflexivity.
  - vm_compute. reflexivity.
  - split; [exact Hs | exact Ht].
Defined.

Lemma blank_path_disables_update_witness :
  let w := displayed host_mac config_path (disk_with preservation_text) in
  let s' := settings_with [] in
  run (onClick_updateJson platform host_mac)
      (run (onInput_claudeConfigPath (js "   ")) w) =
    {| ui := set_plugin_settings s' (ui w);
       disk := disk w;
       trace := trace w ++ [ ESaveData s'; ENotice NoticePathNotSet ] |}.
Proof.
  intros w s'.
  apply (blank_path_disables_update platform host_mac w (js "   ")).
  vm_compute. reflexivity.
Defined.

Lemma edits_saved_and_disk_untouched_witness :
  let w := displayed host_mac config_path (disk_with preservation_text) in
  let w' := run (perform platform host_mac (EditHistoryFolder (js " h "))) w in
  disk w' = disk w /\
  (new_events w w' = [ ESaveData (plugin_settings (ui w')) ] \/
   plugin_settings (ui w') = plugin_settings (ui w) /\
   (new_events w w' = [] \/ new_events w w' = [ ENotice NoticeInvalidInteger ])).
Proof.
  intros w w'.
  apply (edits_saved_and_disk_untouched platform host_mac
           (EditHistoryFolder (js " h ")) w).
  discriminate.
Defined.

Lemma written_entry_is_current_witness :
  let w0 :=
    perform_all platform host_mac example_edits
      (run (display platform host_mac)
           (initial config_path (disk_with preservation_text))) in
  let w' := run (onClick_updateJson platform host_mac) w0 in
  plugin_settings (ui w0) =
    {| claudeConfigPath := config_path; uvPath := None;
       historyFolder := Some (js "mcp-history"); maxHistoryFiles := Int 7 |} /\
  exists doc servers,
    disk w' !! config_path = Some (File (serialize platform [] doc)) /\
    get_prop doc (js "mcpServers") = Some servers /\
    get_prop servers entryKey =
      Some (fragment platform host_mac (plugin_settings (ui w0))
              (getLocalRestApiCredentials platform host_mac)).
Proof.
  intros w0 w'. split; [vm_compute; reflexivity|].
  apply (written_entry_is_current platform host_mac example_edits
           (initial config_path (disk_with preservation_text))).
  apply (list_elem_of_lookup_2 _ 4). vm_compute. reflexivity.
Defined.

Lemma updateJson_creates_only_what_it_needs_witness :
  let w := displayed host_mac DefaultClaudeConfigPaths_macOS ∅ in
  let p := js "/Users/u/Library/Application Support/Claude/claude_desktop_config.json" in
  let dirPath := js "/Users/u/Library/Application Support/Claude" in
  let q := js "/Users/u/Library" in
  disk (run (onClick_updateJson platform host_mac) w) !! q = Some Dir /\
  (disk w !! q = Some Dir \/
   (q = p /\ exists text, Dir = File text) \/
   (q ∈ ancestors platform (length dirPath) dirPath /\ Dir = Dir /\
    disk w !! dirPath = None)).
Proof.
  intros w p dirPath q.
  assert (Hq : disk (run (onClick_updateJson platform host_mac) w) !! q
               = Some Dir) by (vm_compute; reflexivity).
  split; [exact Hq|].
  exact (updateJson_creates_only_what_it_needs platform host_mac w q Dir Hq).
Defined.

